(** * EffectsConfiguration: the video-effects control component

    A shallow embedding of
    [frontend/src/features/rooms/livekit/components/effects/EffectsConfiguration.tsx]:
    the option objects and their JSON text, the processor store shared by the
    track and the component, and the async control functions [clearEffect],
    [toggleEffect], [isSelected], [getFaceLandmarksOptions] and
    [toggleFaceLandmarkEffect], written in a small state-and-exception monad. *)

From Stdlib Require Import ZArith Ascii String List Lia.
From Stdlib Require Import Decimal DecimalString DecimalZ.
From stdpp Require Import base decidable option list gmap strings.

(** ** Option objects ([BackgroundOptions]) *)

(** [ProcessorType] is imported from [../blur]; the component names its three
    members. *)
Inductive ProcessorType : Type := BLUR | VIRTUAL | FACE_LANDMARKS.

(** [enum BlurRadius]. *)
Inductive BlurRadius : Type := NONE | LIGHT | NORMAL.

Definition BlurRadius_value (r : BlurRadius) : Z :=
  match r with
  | NONE => 0
  | LIGHT => 5
  | NORMAL => 10
  end%Z.

(** The values the component stores in an options object: booleans
    ([showGlasses], [showFrench]), integral numbers ([blurRadius], one of the
    [BlurRadius] values) and strings ([imagePath]).  A string is a sequence of
    code units below 256. *)
Inductive JsVal : Type :=
| JBool (b : bool)
| JNum (n : Z)
| JStr (s : string).

(** An options object is the list of its own properties in enumeration order
    (insertion order: none of the component's keys is an array index).  Keys
    of an object are pairwise distinct. *)
Definition BackgroundOptions : Type := list (string * JsVal).

Definition well_formed_object (o : BackgroundOptions) : Prop := NoDup (o.*1).

#[global] Instance ProcessorType_eq_dec : EqDecision ProcessorType.
Proof. solve_decision. Defined.

#[global] Instance JsVal_eq_dec : EqDecision JsVal.
Proof. solve_decision. Defined.

(** [o[key]]: the first (and, in a well-formed object, only) property named
    [key]; [None] stands for [undefined]. *)
Fixpoint js_get (o : BackgroundOptions) (key : string) : option JsVal :=
  match o with
  | [] => None
  | (k, v) :: rest => if String.eqb k key then Some v else js_get rest key
  end.

(** [o[key] = v] on a copy: an existing property keeps its place, a new one is
    added last. *)
Fixpoint js_set (o : BackgroundOptions) (key : string) (v : JsVal) : BackgroundOptions :=
  match o with
  | [] => [(key, v)]
  | (k, x) :: rest =>
      if String.eqb k key then (k, v) :: rest else (k, x) :: js_set rest key v
  end.

(** JavaScript's [ToBoolean] on a property read. *)
Definition truthy (v : option JsVal) : bool :=
  match v with
  | None => false
  | Some (JBool b) => b
  | Some (JNum n) => negb (Z.eqb n 0)
  | Some (JStr s) => negb (String.eqb s EmptyString)
  end.

(** ** [JSON.stringify] on option objects *)

Module JSON.

Definition dquote : ascii := "034"%char.
Definition backslash : ascii := "092"%char.

Definition hex_digit (n : N) : ascii :=
  match n with
  | 0 => "0" | 1 => "1" | 2 => "2" | 3 => "3" | 4 => "4" | 5 => "5"
  | 6 => "6" | 7 => "7" | 8 => "8" | 9 => "9" | 10 => "a" | 11 => "b"
  | 12 => "c" | 13 => "d" | 14 => "e" | _ => "f"
  end%N%char.

(** One code unit of [QuoteJSONString]: the two-character escapes, [\u00xx]
    for the other control characters, and the unit itself otherwise. *)
Definition escape_char (c : ascii) : string :=
  let n := N_of_ascii c in
  if (n =? 8)%N then String backslash "b"
  else if (n =? 9)%N then String backslash "t"
  else if (n =? 10)%N then String backslash "n"
  else if (n =? 12)%N then String backslash "f"
  else if (n =? 13)%N then String backslash "r"
  else if (n =? 34)%N then String backslash (String dquote EmptyString)
  else if (n =? 92)%N then String backslash (String backslash EmptyString)
  else if (n <? 32)%N then
    String backslash
      (String "u" (String "0" (String "0"
        (String (hex_digit (n / 16)) (String (hex_digit (n mod 16)) EmptyString)))))
  else String c EmptyString.

Fixpoint escape (s : string) : string :=
  match s with
  | EmptyString => EmptyString
  | String c rest => escape_char c +:+ escape rest
  end.

Definition quote (s : string) : string :=
  String dquote (escape s +:+ String dquote EmptyString).

(** [Number::toString] on an integer in the range printed without exponent:
    decimal digits, a leading minus sign for negative numbers. *)
Definition number_to_string (n : Z) : string :=
  NilEmpty.string_of_int (Z.to_int n).

Definition stringify_value (v : JsVal) : string :=
  match v with
  | JBool true => "true"
  | JBool false => "false"
  | JNum n => number_to_string n
  | JStr s => quote s
  end.

Fixpoint stringify_properties (o : BackgroundOptions) : string :=
  match o with
  | [] => EmptyString
  | (k, v) :: rest =>
      let property := quote k +:+ ":" +:+ stringify_value v in
      match rest with
      | [] => property
      | _ :: _ => property +:+ "," +:+ stringify_properties rest
      end
  end.

Definition stringify (o : BackgroundOptions) : string :=
  "{" +:+ stringify_properties o +:+ "}".

(** Reading back one escaped code unit; used to show that the text determines
    the string. *)
Definition hex_value (c : ascii) : option N :=
  (if Ascii.eqb c "0" then Some 0 else if Ascii.eqb c "1" then Some 1
   else if Ascii.eqb c "2" then Some 2 else if Ascii.eqb c "3" then Some 3
   else if Ascii.eqb c "4" then Some 4 else if Ascii.eqb c "5" then Some 5
   else if Ascii.eqb c "6" then Some 6 else if Ascii.eqb c "7" then Some 7
   else if Ascii.eqb c "8" then Some 8 else if Ascii.eqb c "9" then Some 9
   else if Ascii.eqb c "a" then Some 10 else if Ascii.eqb c "b" then Some 11
   else if Ascii.eqb c "c" then Some 12 else if Ascii.eqb c "d" then Some 13
   else if Ascii.eqb c "e" then Some 14 else if Ascii.eqb c "f" then Some 15
   else None)%N.

Definition unescape_char (s : string) : option (ascii * string) :=
  match s with
  | EmptyString => None
  | String c r =>
      if Ascii.eqb c dquote then None
      else if Ascii.eqb c backslash then
        match r with
        | EmptyString => None
        | String d r' =>
            if Ascii.eqb d "b" then Some ("008"%char, r')
            else if Ascii.eqb d "t" then Some ("009"%char, r')
            else if Ascii.eqb d "n" then Some ("010"%char, r')
            else if Ascii.eqb d "f" then Some ("012"%char, r')
            else if Ascii.eqb d "r" then Some ("013"%char, r')
            else if Ascii.eqb d dquote then Some (dquote, r')
            else if Ascii.eqb d backslash then Some (backslash, r')
            else if Ascii.eqb d "u" then
              match r' with
              | String _ (String _ (String h (String l r''))) =>
                  match hex_value h, hex_value l with
                  | Some a, Some b => Some (ascii_of_N (16 * a + b), r'')
                  | _, _ => None
                  end
              | _ => None
              end
            else None
        end
      else Some (c, r)
  end.

(** The characters of a printed integer. *)
Definition is_number_char (c : ascii) : bool :=
  Ascii.eqb c "-" || (48 <=? N_of_ascii c)%N && (N_of_ascii c <=? 57)%N.

Fixpoint all_chars (P : ascii -> bool) (s : string) : bool :=
  match s with
  | EmptyString => true
  | String c rest => P c && all_chars P rest
  end.

(** The characters that end a property value inside an object. *)
Definition is_separator (c : ascii) : bool :=
  Ascii.eqb c "," || Ascii.eqb c "}".

(** What follows a property in the text of an object. *)
Definition after_property (rest : BackgroundOptions) (tail : string) : string :=
  match rest with
  | [] => tail
  | _ :: _ => String "," (stringify_properties rest +:+ tail)
  end.

End JSON.

(** Deep equality of option objects, as the specification words it: by value,
    whatever the order of the keys.  Two objects are compared as finite maps
    from property names to values. *)
Definition as_map (o : BackgroundOptions) : gmap string JsVal := list_to_map o.

Definition deepEqual (a b : BackgroundOptions) : bool :=
  bool_decide (as_map a = as_map b).

(** ** The processor store, the track and the component state *)

(** Processors are objects shared by the track, the component and the parent
    (through [onSubmit]); a reference is an index in the store. *)
Abbreviation ProcRef := nat (only parsing).

(** Life cycle of a processor (section 4.3 of the specification). *)
Inductive Lifecycle : Type := Unbound | Bound | Disposed.

#[global] Instance Lifecycle_eq_dec : EqDecision Lifecycle.
Proof. solve_decision. Defined.

Record ProcessorObj : Type := mkProcessorObj {
  ptype : ProcessorType;
  poptions : BackgroundOptions;
  pstate : Lifecycle
}.

(** [LocalVideoTrack]: only its processor slot matters here. *)
Record LocalVideoTrack : Type := mkTrack {
  track_processor : option ProcRef
}.

(** What the component and its parent can observe of a call. *)
Inductive Event : Type :=
| EvConstruct (p : ProcRef) (type : ProcessorType) (options : BackgroundOptions)
| EvToggle (forceState : bool) (processor : option ProcRef)
| EvSetProcessor (p : option ProcRef)
| EvStopProcessor
| EvUpdate (p : ProcRef) (options : BackgroundOptions)
| EvSubmit (p : option ProcRef)
| EvConsoleError.

(** The only callback the component hands to [setTimeout]. *)
Inductive TimerCallback : Type :=
| SetProcessorPending (b : bool).

Record World : Type := mkWorld {
  videoTrack : option LocalVideoTrack;  (* the [videoTrack] prop, [None] when undefined *)
  enabled : bool;                       (* [enabled] of [useTrackToggle] *)
  heap : list ProcessorObj;             (* every processor constructed so far *)
  processorPending : bool;              (* the [processorPending] state *)
  timers : list TimerCallback;          (* callbacks queued by [setTimeout] *)
  trace : list Event                    (* calls made so far, oldest first *)
}.

Definition set_videoTrack (t : option LocalVideoTrack) (w : World) : World :=
  mkWorld t (enabled w) (heap w) (processorPending w) (timers w) (trace w).
Definition set_enabled (b : bool) (w : World) : World :=
  mkWorld (videoTrack w) b (heap w) (processorPending w) (timers w) (trace w).
Definition set_heap (h : list ProcessorObj) (w : World) : World :=
  mkWorld (videoTrack w) (enabled w) h (processorPending w) (timers w) (trace w).
Definition set_processorPending (b : bool) (w : World) : World :=
  mkWorld (videoTrack w) (enabled w) (heap w) b (timers w) (trace w).
Definition set_timers (q : list TimerCallback) (w : World) : World :=
  mkWorld (videoTrack w) (enabled w) (heap w) (processorPending w) q (trace w).
Definition set_trace (tr : list Event) (w : World) : World :=
  mkWorld (videoTrack w) (enabled w) (heap w) (processorPending w) (timers w) tr.

(** How the collaborators answer during one call of a control function: each
    of them is called at most once per call. *)
Record Env : Type := mkEnv {
  factory_supported : bool;     (* the factory returns a processor, not undefined *)
  toggle_rejects : bool;        (* enabling the camera fails *)
  setProcessor_rejects : bool;  (* binding a processor fails *)
  stopProcessor_rejects : bool; (* stopping the bound processor fails *)
  update_throws : bool;         (* [processor.update] throws *)
  onSubmit_prop : option bool   (* [None]: no callback; [Some b]: it throws iff [b] *)
}.

Inductive JsError : Type :=
| TypeError | TrackUnavailable | ProcessorFailure | CallbackFailure.

(** ** Async functions: state passing with exceptions *)

Inductive Completion (A : Type) : Type :=
| Returned (a : A)
| Thrown (e : JsError).
Arguments Returned {A} a.
Arguments Thrown {A} e.

Definition Async (A : Type) : Type := World -> Completion A * World.

Definition ret {A} (a : A) : Async A := fun w => (Returned a, w).

Definition throw {A} (e : JsError) : Async A := fun w => (Thrown e, w).

Definition bind {A B} (m : Async A) (k : A -> Async B) : Async B :=
  fun w =>
    match m w with
    | (Returned a, w') => k a w'
    | (Thrown e, w') => (Thrown e, w')
    end.

#[global] Instance Async_ret : MRet Async := @ret.
#[global] Instance Async_bind : MBind Async := fun A B k m => bind m k.

(** [try { body } catch (error) { handler } finally { finalizer }]. *)
Definition try_catch_finally {A} (body : Async A) (handler : JsError -> Async A)
    (finalizer : Async unit) : Async A :=
  fun w =>
    let '(c, w1) := match body w with
                    | (Returned a, w') => (Returned a, w')
                    | (Thrown e, w') => handler e w'
                    end in
    match finalizer w1 with
    | (Returned _, w2) => (c, w2)
    | (Thrown e, w2) => (Thrown e, w2)
    end.

Definition log (e : Event) : Async unit :=
  fun w => (Returned tt, set_trace (trace w ++ [e]) w).

Definition set_lifecycle (st : Lifecycle) (o : ProcessorObj) : ProcessorObj :=
  mkProcessorObj (ptype o) (poptions o) st.

Definition set_options (opts : BackgroundOptions) (o : ProcessorObj) : ProcessorObj :=
  mkProcessorObj (ptype o) opts (pstate o).

(** Change the life cycle of the referenced processor, if any. *)
Definition mark (st : Lifecycle) (p : option ProcRef) (h : list ProcessorObj)
    : list ProcessorObj :=
  match p with
  | None => h
  | Some q => alter (set_lifecycle st) q h
  end.

Definition gets {A} (f : World -> A) : Async A := fun w => (Returned (f w), w).

(** ** The collaborators *)

(** Modelled from the spec: [BackgroundProcessorFactory.getProcessor] of
    [../blur] (section 4.2, createProcessor).  It constructs a new unbound
    processor of the requested kind, initialised with the options; the source
    asserts the result non-null, so an unsupported runtime yields
    [undefined]. *)
Definition BackgroundProcessorFactory_getProcessor (env : Env)
    (type : ProcessorType) (options : BackgroundOptions) : Async (option ProcRef) :=
  fun w =>
    if factory_supported env then
      let p := length (heap w) in
      (Returned (Some p),
       set_trace (trace w ++ [EvConstruct p type options])
         (set_heap (heap w ++ [mkProcessorObj type options Unbound]) w))
    else (Returned None, w).

(** Modelled from the spec: [processor.serialize()] of [../blur] (section 4.3,
    getDescriptor): the current kind and options of the processor. *)
Definition serialize (p : ProcRef) (w : World)
    : option (ProcessorType * BackgroundOptions) :=
  match heap w !! p with
  | Some o => Some (ptype o, poptions o)
  | None => None
  end.

(** Modelled from the spec: [processor.update(options)] of [../blur] (section
    4.3, updateOptions): the options of the running processor are replaced, the
    processor stays bound. *)
Definition processor_update (env : Env) (p : ProcRef) (options : BackgroundOptions)
    : Async unit :=
  log (EvUpdate p options);;
  if update_throws env then throw ProcessorFailure
  else fun w => (Returned tt, set_heap (alter (set_options options) p (heap w)) w).

(** Modelled from the spec: [toggle(forceState, { processor })] of
    [useTrackToggle] (section 6, enableTrack): enables the camera; when no
    track exists yet the track is created with the given processor already
    bound.  On failure nothing changes. *)
Definition toggle (env : Env) (forceState : bool) (proc : option ProcRef)
    : Async unit :=
  log (EvToggle forceState proc);;
  if toggle_rejects env then throw TrackUnavailable
  else fun w =>
    match videoTrack w with
    | Some _ => (Returned tt, set_enabled forceState w)
    | None =>
        if forceState then
          (Returned tt,
           set_enabled true
             (set_videoTrack (Some (mkTrack proc))
                (set_heap (mark Bound proc (heap w)) w)))
        else (Returned tt, set_enabled false w)
    end.

(** Modelled from the spec: [videoTrack.stopProcessor()] (section 6,
    unbindProcessor; section 4.3, detach is idempotent): the bound processor is
    stopped and disposed, the slot is emptied; nothing happens on an empty
    slot.  Calling a method of an undefined [videoTrack] is a [TypeError]. *)
Definition videoTrack_stopProcessor (env : Env) : Async unit :=
  fun w =>
    match videoTrack w with
    | None => (Thrown TypeError, w)
    | Some t =>
        let w1 := set_trace (trace w ++ [EvStopProcessor]) w in
        match track_processor t with
        | None => (Returned tt, w1)
        | Some p =>
            if stopProcessor_rejects env then (Thrown ProcessorFailure, w1)
            else (Returned tt,
                  set_videoTrack (Some (mkTrack None))
                    (set_heap (mark Disposed (Some p) (heap w1)) w1))
        end
    end.

(** Modelled from the spec: [videoTrack.setProcessor(p)] (section 6,
    bindProcessor; section 4.4): the new processor is bound, and the previous
    one, if any, is disposed once the new one is bound.  On failure nothing
    changes.  An undefined processor is a [TypeError]. *)
Definition videoTrack_setProcessor (env : Env) (p : option ProcRef) : Async unit :=
  fun w =>
    match videoTrack w with
    | None => (Thrown TypeError, w)
    | Some t =>
        let w1 := set_trace (trace w ++ [EvSetProcessor p]) w in
        match p with
        | None => (Thrown TypeError, w1)
        | Some q =>
            if setProcessor_rejects env then (Thrown ProcessorFailure, w1)
            else (Returned tt,
                  set_videoTrack (Some (mkTrack (Some q)))
                    (set_heap
                       (mark Bound (Some q)
                          (mark Disposed (track_processor t) (heap w1))) w1))
        end
    end.

(** [onSubmit?.(p)]. *)
Definition onSubmit (env : Env) (p : option ProcRef) : Async unit :=
  match onSubmit_prop env with
  | None => ret tt
  | Some throws =>
      log (EvSubmit p);;
      if throws then throw CallbackFailure else ret tt
  end.

Definition console_error : Async unit := log EvConsoleError.

Definition setProcessorPending (b : bool) : Async unit :=
  fun w => (Returned tt, set_processorPending b w).

Definition setTimeout (cb : TimerCallback) : Async unit :=
  fun w => (Returned tt, set_timers (timers w ++ [cb]) w).

Definition run_callback (w : World) (cb : TimerCallback) : World :=
  match cb with
  | SetProcessorPending b => set_processorPending b w
  end.

(** The event loop runs the queued callbacks, oldest first. *)
Definition runTimers (w : World) : World :=
  foldl run_callback (set_timers [] w) (timers w).

(** ** The component *)

(** [videoTrack?.getProcessor()]. *)
Definition getProcessor (w : World) : option ProcRef :=
  match videoTrack w with
  | Some t => track_processor t
  | None => None
  end.

Definition isSelected (type : ProcessorType) (options : BackgroundOptions)
    (w : World) : bool :=
  match getProcessor w with
  | None => false
  | Some p =>
      match serialize p w with
      | None => false
      | Some (ty, opts) =>
          bool_decide (ty = type)
          && String.eqb (JSON.stringify opts) (JSON.stringify options)
      end
  end.

Definition clearEffect (env : Env) : Async unit :=
  videoTrack_stopProcessor env;;
  onSubmit env None.

Definition toggleEffect (env : Env) (type : ProcessorType)
    (options : BackgroundOptions) : Async unit :=
  setProcessorPending true;;
  vt ← gets videoTrack;
  match vt with
  | None =>
      newProcessorTmp ← BackgroundProcessorFactory_getProcessor env type options;
      toggle env true newProcessorTmp;;
      setTimeout (SetProcessorPending false);;
      ret tt
  | Some _ =>
      en ← gets enabled;
      (if negb en then toggle env true None else ret tt);;
      processor ← gets getProcessor;
      try_catch_finally
        (selected ← gets (isSelected type options);
         if selected : bool then
           (* Stop processor. *)
           clearEffect env
         else
           differs ← match processor with
                     | None => ret true
                     | Some p =>
                         s ← gets (serialize p);
                         match s with
                         | Some (ty, _) => ret (bool_decide (ty ≠ type))
                         | None => throw TypeError
                         end
                     end;
           if differs : bool then
             (* Change processor. *)
             newProcessor ← BackgroundProcessorFactory_getProcessor env type options;
             videoTrack_setProcessor env newProcessor;;
             onSubmit env newProcessor
           else
             (* Update processor. *)
             match processor with
             | Some p => processor_update env p options
             | None => ret tt
             end;;
             (* We want to trigger onSubmit when options changes so the parent
                component is aware of it. *)
             onSubmit env processor)
        (fun _ => console_error)
        (setTimeout (SetProcessorPending false))
  end.

Definition default_face_options : BackgroundOptions :=
  [("showGlasses", JBool false); ("showFrench", JBool false)].

Definition getFaceLandmarksOptions (w : World) : BackgroundOptions :=
  match getProcessor w with
  | Some p =>
      match serialize p w with
      | Some (FACE_LANDMARKS, opts) => opts
      | _ => default_face_options
      end
  | None => default_face_options
  end.

(** The argument of [toggleFaceLandmarkEffect]: ['glasses' | 'french']. *)
Inductive FaceEffect : Type := glasses | french.

Definition effect_key (effect : FaceEffect) : string :=
  match effect with
  | glasses => "showGlasses"
  | french => "showFrench"
  end.

(** [{ ...currentOptions, [key]: !currentOptions[key] }]. *)
Definition spread_with_flipped (currentOptions : BackgroundOptions)
    (key : string) : BackgroundOptions :=
  js_set currentOptions key (JBool (negb (truthy (js_get currentOptions key)))).

Definition toggleFaceLandmarkEffect (env : Env) (effect : FaceEffect) : Async unit :=
  currentOptions ← gets getFaceLandmarksOptions;
  let newOptions := spread_with_flipped currentOptions (effect_key effect) in
  if negb (truthy (js_get newOptions "showGlasses"))
     && negb (truthy (js_get newOptions "showFrench"))
  then
    (* If both effects are off stop the processor *)
    clearEffect env
  else toggleEffect env FACE_LANDMARKS newOptions.

(** ** Notions used by the statements *)

(** The descriptor of the processor bound to the track, if any. *)
Definition active_descriptor (w : World)
    : option (ProcessorType * BackgroundOptions) :=
  match getProcessor w with
  | Some p => serialize p w
  | None => None
  end.

(** The processors of the store that are bound to a track. *)
Definition is_bound (w : World) (p : ProcRef) : bool :=
  match heap w !! p with
  | Some o => bool_decide (pstate o = Bound)
  | None => false
  end.

Definition is_disposed (w : World) (p : ProcRef) : bool :=
  match heap w !! p with
  | Some o => bool_decide (pstate o = Disposed)
  | None => false
  end.

(** The store and the track agree: the bound processors are exactly the one
    in the track's slot. *)
Definition consistent (w : World) : Prop :=
  forall p, is_bound w p = true <-> getProcessor w = Some p.

(** Every collaborator answers normally during the call. *)
Definition all_succeed (env : Env) : bool :=
  factory_supported env
  && negb (toggle_rejects env)
  && negb (setProcessor_rejects env)
  && negb (stopProcessor_rejects env)
  && negb (update_throws env)
  && bool_decide (onSubmit_prop env <> Some true).

(** The call that enables the camera when [enabled] is false. *)
Definition enabling_events (w : World) : list Event :=
  if enabled w then [] else [EvToggle true None].

(** The call of [onSubmit], when the parent gave one. *)
Definition submit_events (env : Env) (p : option ProcRef) : list Event :=
  match onSubmit_prop env with
  | Some _ => [EvSubmit p]
  | None => []
  end.

Definition is_construct (e : Event) : bool :=
  match e with
  | EvConstruct _ _ _ => true
  | _ => false
  end.

Definition is_submit (e : Event) : bool :=
  match e with
  | EvSubmit _ => true
  | _ => false
  end.


(** The state a call ends in, and how it completes. *)
Definition final {A} (r : Completion A * World) : World := r.2.
Definition completion {A} (r : Completion A * World) : Completion A := r.1.

(** The first claim as the specification states it: selected exactly when a
    processor is active whose kind is the requested one and whose options are
    deep-equal to the requested ones. *)
Definition isSelected_by_deep_equality (type : ProcessorType)
    (options : BackgroundOptions) (w : World) : Prop :=
  isSelected type options w = true
  <-> exists opts, active_descriptor w = Some (type, opts)
                   /\ deepEqual opts options = true.

Definition glasses_first : BackgroundOptions :=
  [("showGlasses", JBool true); ("showFrench", JBool false)].

Definition french_first : BackgroundOptions :=
  [("showFrench", JBool false); ("showGlasses", JBool true)].

(** A camera that is on, with a face-landmarks processor showing glasses. *)
Definition world_with_glasses : World :=
  mkWorld (Some (mkTrack (Some 0))) true
    [mkProcessorObj FACE_LANDMARKS glasses_first Bound] false [] [].

Definition blur_light : BackgroundOptions :=
  [("blurRadius", JNum (BlurRadius_value LIGHT))].

Definition blur_normal : BackgroundOptions :=
  [("blurRadius", JNum (BlurRadius_value NORMAL))].

(** Entering the room with the camera off: no track yet. *)
Definition world_camera_off : World := mkWorld None false [] false [] [].

(** The camera was turned off after use: the track exists, disabled. *)
Definition world_track_disabled : World :=
  mkWorld (Some (mkTrack None)) false [] false [] [].

(** Every collaborator answers normally; the parent listens. *)
Definition env_ok : Env := mkEnv true false false false false (Some false).

(** Binding a processor fails. *)
Definition env_bind_fails : Env := mkEnv true false true false false (Some false).

(** Enabling the camera fails. *)
Definition env_camera_fails : Env := mkEnv true true false false false (Some false).

(** The second claim as the specification states it: toggling a descriptor
    that is deep-equal to the active one clears the processor. *)
Definition toggles_off_by_deep_equality (env : Env) (type : ProcessorType)
    (options : BackgroundOptions) (w : World) : Prop :=
  (exists opts, active_descriptor w = Some (type, opts)
                /\ deepEqual opts options = true) ->
  getProcessor (final (toggleEffect env type options w)) = None.


(** The eighth claim as the specification states it: a second [clearEffect]
    returns, changes nothing and tells the parent nothing. *)
Definition second_clear_unobservable (env1 env2 : Env) (w : World) : Prop :=
  let w1 := final (clearEffect env1 w) in
  let r2 := clearEffect env2 w1 in
  completion r2 = Returned tt
  /\ videoTrack (final r2) = videoTrack w1
  /\ heap (final r2) = heap w1
  /\ List.filter is_submit (trace (final r2)) = List.filter is_submit (trace w1).

(** The options with the single requested flag set. *)
Definition single_flag (effect : FaceEffect) : BackgroundOptions :=
  match effect with
  | glasses => [("showGlasses", JBool true); ("showFrench", JBool false)]
  | french => [("showGlasses", JBool false); ("showFrench", JBool true)]
  end.

Definition both_flags : BackgroundOptions :=
  [("showGlasses", JBool true); ("showFrench", JBool true)].

Definition french_only : BackgroundOptions :=
  [("showGlasses", JBool false); ("showFrench", JBool true)].

(** ** The rendered controls *)

(** [`/assets/backgrounds/${i + 1}.jpg`], for [i] in [[...Array(8).keys()]]. *)
Definition imagePath (i : nat) : string :=
  "/assets/backgrounds/" +:+ JSON.number_to_string (Z.of_nat i + 1) +:+ ".jpg".

Definition virtual_options (i : nat) : BackgroundOptions :=
  [("imagePath", JStr (imagePath i))].

(** The toggle buttons of the panel: the one that removes the effect, the two
    blur levels, the two face overlays and one per background image. *)
Inductive Control : Type :=
| NoEffect
| BlurLight
| BlurNormal
| Glasses
| French
| Virtual (i : nat).

(** The [isSelected] prop of each button. *)
Definition control_isSelected (c : Control) (w : World) : bool :=
  match c with
  | NoEffect =>
      match getProcessor w with
      | Some _ => false
      | None => true
      end
  | BlurLight => isSelected BLUR blur_light w
  | BlurNormal => isSelected BLUR blur_normal w
  | Glasses => truthy (js_get (getFaceLandmarksOptions w) "showGlasses")
  | French => truthy (js_get (getFaceLandmarksOptions w) "showFrench")
  | Virtual i => isSelected VIRTUAL (virtual_options i) w
  end.

(** The [onPress] / [onChange] handler of each button. *)
Definition control_press (env : Env) (c : Control) : Async unit :=
  match c with
  | NoEffect => clearEffect env
  | BlurLight => toggleEffect env BLUR blur_light
  | BlurNormal => toggleEffect env BLUR blur_normal
  | Glasses => toggleFaceLandmarkEffect env glasses
  | French => toggleFaceLandmarkEffect env french
  | Virtual i => toggleEffect env VIRTUAL (virtual_options i)
  end.

(** The buttons whose selection is decided by [isSelected]. *)
Definition control_descriptor (c : Control)
    : option (ProcessorType * BackgroundOptions) :=
  match c with
  | BlurLight => Some (BLUR, blur_light)
  | BlurNormal => Some (BLUR, blur_normal)
  | Virtual i => Some (VIRTUAL, virtual_options i)
  | NoEffect | Glasses | French => None
  end.

Section Labels.

(** The string values of [ProcessorType], declared in [../blur]. *)
Variable ProcessorType_value : ProcessorType -> string.

(** The translation key that [tooltipLabel] hands to [t]. *)
Definition tooltipLabel (type : ProcessorType) (options : BackgroundOptions)
    (w : World) : string :=
  if bool_decide (type = FACE_LANDMARKS) then
    let effect :=
      if truthy (js_get options "showGlasses") then "glasses" else "french" in
    "faceLandmarks." +:+ effect +:+ "."
      +:+ (if isSelected type options w then "clear" else "apply")
  else
    ProcessorType_value type +:+ "."
      +:+ (if isSelected type options w then "clear" else "apply").

End Labels.

(** The face-landmarks options with the two flags, in the order the component
    writes them. *)
Definition face_flags (showGlasses showFrench : bool) : BackgroundOptions :=
  [("showGlasses", JBool showGlasses); ("showFrench", JBool showFrench)].

(** The flags after toggling one effect. *)
Definition flipped_flags (effect : FaceEffect) (showGlasses showFrench : bool)
    : bool * bool :=
  match effect with
  | glasses => (negb showGlasses, showFrench)
  | french => (showGlasses, negb showFrench)
  end.

Definition is_stop (e : Event) : bool :=
  match e with
  | EvStopProcessor => true
  | _ => false
  end.

(** The two face buttons. *)
Definition is_face_control (c : Control) : Prop := c = Glasses \/ c = French.

(** Consistency and the active descriptor, read off the slot and the store. *)
Definition slot_consistent (slot : option ProcRef) (h : list ProcessorObj) : Prop :=
  consistent (mkWorld (Some (mkTrack slot)) false h false [] []).

Definition descriptor_at (slot : option ProcRef) (h : list ProcessorObj)
    : option (ProcessorType * BackgroundOptions) :=
  active_descriptor (mkWorld (Some (mkTrack slot)) false h false [] []).

(** * Properties *)

(** ** The JSON text determines the object *)

Module JSONFacts.
Import JSON.

#[local] Arguments String.append !s1 s2 : simpl nomatch.

Example stringify_blur_light :
  stringify [("blurRadius", JNum (BlurRadius_value LIGHT))]
  = String "{" (String dquote ("blurRadius" +:+ String dquote ":5}")).
Proof. reflexivity. Qed.

Lemma append_assoc (a b c : string) : (a +:+ b) +:+ c = a +:+ (b +:+ c).
Proof. induction a as [|x a IH]; cbn; [reflexivity | now f_equal]. Qed.

Lemma unescape_escape_char (c : ascii) (r : string) :
  unescape_char (escape_char c +:+ r) = Some (c, r).
Proof.
  destruct c as [[] [] [] [] [] [] [] []]; reflexivity.
Qed.

Lemma unescape_dquote (r : string) : unescape_char (String dquote r) = None.
Proof. reflexivity. Qed.

(** An escaped string followed by the closing quote is read back in one way. *)
Lemma escape_inj (s1 s2 r1 r2 : string) :
  escape s1 +:+ String dquote r1 = escape s2 +:+ String dquote r2 ->
  s1 = s2 /\ r1 = r2.
Proof.
  revert s2; induction s1 as [|c1 s1 IH]; intros [|c2 s2] H;
    cbn [escape String.append] in H.
  - injection H as ->. auto.
  - rewrite append_assoc in H. apply (f_equal unescape_char) in H.
    rewrite unescape_escape_char, unescape_dquote in H. discriminate.
  - rewrite append_assoc in H. apply (f_equal unescape_char) in H.
    rewrite unescape_escape_char, unescape_dquote in H. discriminate.
  - rewrite !append_assoc in H. apply (f_equal unescape_char) in H.
    rewrite !unescape_escape_char in H. injection H as -> H.
    destruct (IH _ H) as [-> ->]. auto.
Qed.

Lemma quote_inj (s1 s2 r1 r2 : string) :
  quote s1 +:+ r1 = quote s2 +:+ r2 -> s1 = s2 /\ r1 = r2.
Proof.
  unfold quote; cbn [String.append]. rewrite !append_assoc.
  cbn [String.append]. intros H. injection H as H. now apply escape_inj.
Qed.

Lemma uint_chars (d : uint) :
  all_chars is_number_char (NilEmpty.string_of_uint d) = true.
Proof. induction d; simpl; auto. Qed.

Lemma number_chars (n : Z) : all_chars is_number_char (number_to_string n) = true.
Proof.
  unfold number_to_string. destruct (Z.to_int n); simpl; auto using uint_chars.
Qed.

(** Two runs of characters of a class, each followed by a character outside
    the class, are equal when the texts are. *)
Lemma run_inj (P : ascii -> bool) (s1 s2 : string) (t1 t2 : ascii) (r1 r2 : string) :
  all_chars P s1 = true -> all_chars P s2 = true ->
  P t1 = false -> P t2 = false ->
  s1 +:+ String t1 r1 = s2 +:+ String t2 r2 ->
  s1 = s2 /\ String t1 r1 = String t2 r2.
Proof.
  revert s2; induction s1 as [|c1 s1 IH]; intros [|c2 s2] A1 A2 N1 N2 H;
    simpl in *.
  - auto.
  - injection H as -> _. apply andb_prop in A2 as [A2 _]. congruence.
  - injection H as -> _. apply andb_prop in A1 as [A1 _]. congruence.
  - injection H as -> H.
    apply andb_prop in A1 as [_ A1]. apply andb_prop in A2 as [_ A2].
    destruct (IH s2 A1 A2 N1 N2 H) as [-> E]. auto.
Qed.

Lemma number_to_string_inj (n m : Z) :
  number_to_string n = number_to_string m -> n = m.
Proof.
  unfold number_to_string. intros H. apply DecimalZ.to_int_inj.
  apply (f_equal NilEmpty.int_of_string) in H.
  rewrite !NilEmpty.isi in H. congruence.
Qed.

(** A printed number followed by a separator starts with a number character
    or, were it empty, with the separator. *)
Lemma number_first (n : Z) (t : ascii) (r : string) (c : ascii) (s : string) :
  number_to_string n +:+ String t r = String c s ->
  is_number_char c = true \/ c = t.
Proof.
  pose proof (number_chars n) as A.
  destruct (number_to_string n) as [|x xs]; cbn; intros H; injection H as -> _.
  - now right.
  - left. cbn in A. now apply andb_prop in A as [A _].
Qed.

Ltac number_vs_literal H :=
  match type of H with
  | String ?c _ = number_to_string _ +:+ String ?t _ =>
      symmetry in H; number_vs_literal H
  | number_to_string _ +:+ String ?t _ = String ?c _ =>
      let E := fresh in
      destruct (number_first _ _ _ _ _ H) as [E | E];
      [ vm_compute in E; discriminate E
      | subst t; match goal with S : is_separator _ = true |- _ =>
          vm_compute in S; discriminate S end ]
  end.

(** A property value followed by a separator is read back in one way. *)
Lemma value_inj (v1 v2 : JsVal) (t1 t2 : ascii) (r1 r2 : string) :
  is_separator t1 = true -> is_separator t2 = true ->
  stringify_value v1 +:+ String t1 r1 = stringify_value v2 +:+ String t2 r2 ->
  v1 = v2 /\ String t1 r1 = String t2 r2.
Proof.
  intros S1 S2 H.
  destruct v1 as [[]|n1|s1], v2 as [[]|n2|s2]; cbn in H;
    try discriminate H; try (number_vs_literal H).
  - injection H as -> ->; auto.
  - injection H as -> ->; auto.
  - assert (is_number_char t1 = false) as N1.
    { apply orb_prop in S1 as [E|E]; apply Ascii.eqb_eq in E; now subst. }
    assert (is_number_char t2 = false) as N2.
    { apply orb_prop in S2 as [E|E]; apply Ascii.eqb_eq in E; now subst. }
    destruct (run_inj _ _ _ _ _ _ _ (number_chars n1) (number_chars n2) N1 N2 H)
      as [E ->].
    apply number_to_string_inj in E. subst; auto.
  - apply quote_inj in H as [-> ->]. auto.
Qed.

Lemma stringify_properties_cons (k : string) (v : JsVal) (rest : BackgroundOptions)
    (tail : string) :
  stringify_properties ((k, v) :: rest) +:+ tail
  = quote k +:+ String ":" (stringify_value v +:+ after_property rest tail).
Proof.
  destruct rest as [|p rest]; cbn [stringify_properties after_property].
  - now rewrite !append_assoc.
  - rewrite !append_assoc. cbn. now rewrite !append_assoc.
Qed.

Lemma after_property_head (rest : BackgroundOptions) (r : string) :
  exists t s, after_property rest (String "}" r) = String t s
              /\ is_separator t = true.
Proof. destruct rest; cbn; eauto. Qed.

Lemma stringify_properties_inj (o1 o2 : BackgroundOptions) (r1 r2 : string) :
  stringify_properties o1 +:+ String "}" r1
  = stringify_properties o2 +:+ String "}" r2 ->
  o1 = o2 /\ r1 = r2.
Proof.
  revert o2; induction o1 as [|[k1 v1] o1 IH]; intros [|[k2 v2] o2] H.
  - cbn in H. injection H as ->. auto.
  - rewrite stringify_properties_cons in H. discriminate H.
  - rewrite stringify_properties_cons in H. discriminate H.
  - rewrite !stringify_properties_cons in H.
    apply quote_inj in H as [-> H]. injection H as H.
    destruct (after_property_head o1 r1) as (t1 & s1 & E1 & S1).
    destruct (after_property_head o2 r2) as (t2 & s2 & E2 & S2).
    rewrite E1, E2 in H.
    apply value_inj in H as [-> H]; [|assumption..].
    rewrite <- E1, <- E2 in H.
    destruct o1 as [|p1 o1], o2 as [|p2 o2]; cbn [after_property] in H;
      try discriminate H.
    + injection H as ->. auto.
    + injection H as H.
      change (stringify_properties (p1 :: o1) +:+ String "}" r1
              = stringify_properties (p2 :: o2) +:+ String "}" r2) in H.
      apply IH in H as [-> ->]. auto.
Qed.

(** Two option objects with the same JSON text have the same properties, in
    the same order, with the same values. *)
Lemma stringify_inj (o1 o2 : BackgroundOptions) :
  stringify o1 = stringify o2 -> o1 = o2.
Proof.
  unfold stringify. cbn. intros H. injection H as H.
  now apply stringify_properties_inj in H as [-> _].
Qed.

End JSONFacts.

(** ** Reading the store *)

(** A processor already in the store keeps its place when another one is
    constructed. *)
Lemma lookup_alloc_old (h : list ProcessorObj) (o : ProcessorObj) (p : ProcRef)
    (x : ProcessorObj) :
  h !! p = Some x -> (h ++ [o]) !! p = Some x.
Proof. intros H. now apply lookup_app_l_Some. Qed.

(** ** [isSelected] compares descriptors by their JSON text *)

Lemma isSelected_true_iff (type : ProcessorType) (options : BackgroundOptions)
    (w : World) :
  isSelected type options w = true <-> active_descriptor w = Some (type, options).
Proof.
  unfold isSelected, active_descriptor.
  destruct (getProcessor w) as [p|]; [|split; discriminate].
  destruct (serialize p w) as [[ty opts]|]; [|split; discriminate].
  rewrite andb_true_iff, bool_decide_eq_true, String.eqb_eq. split.
  - intros [-> H%JSONFacts.stringify_inj]. now subst.
  - intros [= -> ->]. auto.
Qed.

Lemma isSelected_false_iff (type : ProcessorType) (options : BackgroundOptions)
    (w : World) :
  isSelected type options w = false <-> active_descriptor w <> Some (type, options).
Proof.
  rewrite <- isSelected_true_iff. destruct (isSelected type options w); split;
    congruence.
Qed.

(** ** Running the control functions symbolically *)

#[local] Arguments isSelected : simpl never.

(** One step of evaluation: unfold the monad, the collaborators and the
    setters, then compute. *)
Ltac run1 :=
  unfold toggleEffect, clearEffect, onSubmit, toggle, console_error,
    videoTrack_stopProcessor, videoTrack_setProcessor, processor_update,
    BackgroundProcessorFactory_getProcessor, setProcessorPending, setTimeout,
    try_catch_finally, log, gets, mbind, mret, Async_bind, Async_ret, bind,
    ret, throw, set_videoTrack, set_enabled, set_heap, set_processorPending,
    set_timers, set_trace, mark;
  cbn.

Ltac run := repeat (progress run1).

Lemma active_descriptor_intro w p obj :
  getProcessor w = Some p -> heap w !! p = Some obj ->
  active_descriptor w = Some (ptype obj, poptions obj).
Proof. unfold active_descriptor, serialize. now intros -> ->. Qed.

(** The branch that stops the processor: the descriptor is the active one. *)
Lemma toggleEffect_clear env type options w p obj :
  videoTrack w = Some (mkTrack (Some p)) ->
  heap w !! p = Some obj -> ptype obj = type -> poptions obj = options ->
  (enabled w = true \/ toggle_rejects env = false) ->
  stopProcessor_rejects env = false ->
  onSubmit_prop env <> Some true ->
  toggleEffect env type options w =
    (Returned tt,
     mkWorld (Some (mkTrack None)) true
       (alter (set_lifecycle Disposed) p (heap w)) true
       (timers w ++ [SetProcessorPending false])
       (trace w ++ enabling_events w ++ [EvStopProcessor] ++ submit_events env None)).
Proof.
  intros Hv Hh <- <- He Hs Ho.
  destruct w as [vt en h pend tm tr], env as [fs tg sp st up os];
    cbn in *; subst.
  assert (forall e pe q t',
            isSelected (ptype obj) (poptions obj)
              (mkWorld (Some (mkTrack (Some p))) e h pe q t') = true) as Sel.
  { intros. apply isSelected_true_iff. now apply (active_descriptor_intro _ p). }
  unfold enabling_events, submit_events; cbn.
  destruct en; [|destruct He as [He|He]; [discriminate|subst tg]]; run;
    rewrite !Sel; run.
  all: destruct os as [[]|]; try congruence; run; rewrite <- ?app_assoc;
    reflexivity.
Qed.

Lemma alter_alloc (f : ProcessorObj -> ProcessorObj) (h : list ProcessorObj) o :
  alter f (length h) (h ++ [o]) = h ++ [f o].
Proof. induction h as [|x h IH]; cbn; [reflexivity | now f_equal]. Qed.

Lemma mark_alloc st (q : option nat) (h : list ProcessorObj) o :
  (forall p, q = Some p -> is_Some (h !! p)) ->
  mark st q (h ++ [o]) = mark st q h ++ [o].
Proof.
  destruct q as [p|]; cbn; [|reflexivity]. intros H.
  destruct (H p eq_refl) as [x Hx%lookup_lt_Some]. now rewrite alter_app_l.
Qed.

Lemma mark_length st q (h : list ProcessorObj) : length (mark st q h) = length h.
Proof. destruct q; cbn; [apply length_alter | reflexivity]. Qed.

(** The branch taken without a video track. *)
Lemma toggleEffect_no_track env type options w :
  videoTrack w = None -> factory_supported env = true ->
  toggleEffect env type options w =
    let n := length (heap w) in
    let tr := trace w ++ [EvConstruct n type options; EvToggle true (Some n)] in
    if toggle_rejects env then
      (Thrown TrackUnavailable,
       mkWorld None (enabled w)
         (heap w ++ [mkProcessorObj type options Unbound]) true (timers w) tr)
    else
      (Returned tt,
       mkWorld (Some (mkTrack (Some n))) true
         (heap w ++ [mkProcessorObj type options Bound]) true
         (timers w ++ [SetProcessorPending false]) tr).
Proof.
  intros Hv Hf.
  destruct w as [vt en h pend tm tr], env as [fs tg sp st up os];
    cbn in *; subst.
  run. destruct tg; run; rewrite <- ?app_assoc; [reflexivity|].
  now rewrite alter_alloc.
Qed.

(** The branch that changes the processor: none is active, or one of another
    kind. *)
Lemma toggleEffect_change env type options w t :
  videoTrack w = Some t ->
  (forall p, track_processor t = Some p ->
     exists obj, heap w !! p = Some obj /\ ptype obj <> type) ->
  factory_supported env = true ->
  (enabled w = true \/ toggle_rejects env = false) ->
  setProcessor_rejects env = false ->
  onSubmit_prop env <> Some true ->
  toggleEffect env type options w =
    let n := length (heap w) in
    (Returned tt,
     mkWorld (Some (mkTrack (Some n))) true
       (mark Disposed (track_processor t) (heap w)
        ++ [mkProcessorObj type options Bound]) true
       (timers w ++ [SetProcessorPending false])
       (trace w ++ enabling_events w
        ++ [EvConstruct n type options; EvSetProcessor (Some n)]
        ++ submit_events env (Some n))).
Proof.
  intros Hv Hk Hf He Hs Ho.
  destruct w as [vt en h pend tm tr], env as [fs tg sp st up os], t as [old];
    cbn in *; subst.
  assert (forall e pe q t',
            isSelected type options (mkWorld (Some (mkTrack old)) e h pe q t')
            = false) as Sel.
  { intros. apply isSelected_false_iff. unfold active_descriptor, serialize; cbn.
    destruct old as [p|]; [|discriminate].
    destruct (Hk p eq_refl) as (obj & -> & Hne). congruence. }
  assert (mark Bound (Some (length h))
            (mark Disposed old (h ++ [mkProcessorObj type options Unbound]))
          = mark Disposed old h ++ [mkProcessorObj type options Bound]) as Hm.
  { rewrite mark_alloc.
    - cbn [mark]. rewrite <- (mark_length Disposed old h). now rewrite alter_alloc.
    - intros p ->. destruct (Hk p eq_refl) as (obj & -> & _). eauto. }
  unfold enabling_events, submit_events; cbn.
  destruct en; [|destruct He as [He|He]; [discriminate|subst tg]]; run;
    rewrite !Sel; run.
  all: destruct old as [p|];
    [destruct (Hk p eq_refl) as (obj & Hh & Hne); unfold serialize; cbn;
     rewrite Hh; run; rewrite bool_decide_eq_true_2 by assumption; run|].
  all: unfold mark in Hm; cbn in Hm.
  all: destruct os as [[]|]; try congruence; run; rewrite <- ?app_assoc, ?Hm;
    reflexivity.
Qed.

(** The branch that updates the processor: the active kind, other options. *)
Lemma toggleEffect_update env type options w p obj :
  videoTrack w = Some (mkTrack (Some p)) ->
  heap w !! p = Some obj -> ptype obj = type -> poptions obj <> options ->
  (enabled w = true \/ toggle_rejects env = false) ->
  update_throws env = false ->
  onSubmit_prop env <> Some true ->
  toggleEffect env type options w =
    (Returned tt,
     mkWorld (Some (mkTrack (Some p))) true
       (alter (set_options options) p (heap w)) true
       (timers w ++ [SetProcessorPending false])
       (trace w ++ enabling_events w ++ [EvUpdate p options]
        ++ submit_events env (Some p))).
Proof.
  intros Hv Hh <- Hne He Hu Ho.
  destruct w as [vt en h pend tm tr], env as [fs tg sp st up os];
    cbn in *; subst.
  assert (forall e pe q t',
            isSelected (ptype obj) options
              (mkWorld (Some (mkTrack (Some p))) e h pe q t') = false) as Sel.
  { intros. apply isSelected_false_iff.
    rewrite (active_descriptor_intro _ p obj); [congruence | reflexivity | exact Hh]. }
  unfold enabling_events, submit_events; cbn.
  destruct en; [|destruct He as [He|He]; [discriminate|subst tg]]; run;
    rewrite !Sel; run; unfold serialize; cbn; rewrite Hh; run;
    rewrite bool_decide_eq_false_2 by (intros X; now apply X); run.
  all: destruct os as [[]|]; try congruence; run; rewrite <- ?app_assoc; try reflexivity.
Qed.

(** ** The store and the track stay consistent *)

Lemma consistent_lookup w p :
  consistent w -> getProcessor w = Some p ->
  exists obj, heap w !! p = Some obj /\ pstate obj = Bound.
Proof.
  intros C G. apply C in G. unfold is_bound in G.
  destruct (heap w !! p) as [obj|]; [|discriminate].
  apply bool_decide_eq_true in G. eauto.
Qed.

Lemma is_bound_alloc h o e b tm tr vt q :
  is_bound (mkWorld vt e (h ++ [o]) b tm tr) q
  = if decide (q = length h) then bool_decide (pstate o = Bound)
    else is_bound (mkWorld vt e h b tm tr) q.
Proof.
  unfold is_bound; cbn. case_decide as E.
  - subst. now rewrite list_lookup_middle.
  - destruct (decide (q < length h)).
    + now rewrite lookup_app_l.
    + rewrite !lookup_ge_None_2; [reflexivity| lia |rewrite length_app; cbn; lia].
Qed.

Lemma is_bound_mark_disposed h old e b tm tr vt q :
  is_bound (mkWorld vt e (mark Disposed old h) b tm tr) q
  = if decide (old = Some q) then false else is_bound (mkWorld vt e h b tm tr) q.
Proof.
  unfold is_bound, mark; cbn. destruct old as [p|].
  - case_decide as E.
    + injection E as ->. rewrite list_lookup_alter_eq.
      now destruct (h !! q).
    + rewrite list_lookup_alter_ne; [reflexivity | congruence].
  - now case_decide.
Qed.

Lemma is_bound_set_options h p o e b tm tr vt q :
  is_bound (mkWorld vt e (alter (set_options o) p h) b tm tr) q
  = is_bound (mkWorld vt e h b tm tr) q.
Proof.
  unfold is_bound; cbn. destruct (decide (p = q)) as [->|E].
  - rewrite list_lookup_alter_eq. now destruct (h !! q).
  - now rewrite list_lookup_alter_ne.
Qed.

Lemma toggleEffect_deactivates env type options w :
  consistent w -> active_descriptor w = Some (type, options) ->
  (enabled w = true \/ toggle_rejects env = false) ->
  stopProcessor_rejects env = false ->
  onSubmit_prop env <> Some true ->
  let r := toggleEffect env type options w in
  completion r = Returned tt
  /\ getProcessor (final r) = None
  /\ (forall q, is_bound (final r) q = false)
  /\ (forall p, getProcessor w = Some p -> is_disposed (final r) p = true)
  /\ trace (final r)
     = trace w ++ enabling_events w ++ [EvStopProcessor] ++ submit_events env None.
Proof.
  intros C A He Hs Ho. unfold active_descriptor in A.
  destruct (getProcessor w) as [p|] eqn:G; [|discriminate].
  destruct (consistent_lookup w p C G) as (obj & Hh & Hb).
  unfold serialize in A. rewrite Hh in A. injection A as A1 A2.
  assert (videoTrack w = Some (mkTrack (Some p))) as Hv.
  { unfold getProcessor in G. destruct (videoTrack w) as [[x]|]; cbn in G; congruence. }
  cbn zeta. rewrite (toggleEffect_clear env type options w p obj) by assumption.
  cbn. repeat split; try reflexivity.
  - intros q. rewrite (is_bound_mark_disposed (heap w) (Some p)).
    case_decide as E; [reflexivity|].
    destruct (is_bound _ q) eqn:B; [|reflexivity].
    exfalso. apply E. rewrite <- G. apply (C q). exact B.
  - intros ? [= <-]. unfold is_disposed; cbn.
    rewrite list_lookup_alter_eq, Hh. reflexivity.
Qed.

Lemma all_succeed_elim env :
  all_succeed env = true ->
  factory_supported env = true /\ toggle_rejects env = false
  /\ setProcessor_rejects env = false /\ stopProcessor_rejects env = false
  /\ update_throws env = false /\ onSubmit_prop env <> Some true.
Proof.
  unfold all_succeed. rewrite !andb_true_iff, !negb_true_iff, bool_decide_eq_true.
  tauto.
Qed.

Lemma getProcessor_track w p :
  getProcessor w = Some p -> videoTrack w = Some (mkTrack (Some p)).
Proof.
  unfold getProcessor. destruct (videoTrack w) as [[x]|]; cbn; congruence.
Qed.

Lemma filter_events (f : Event -> bool) w env x (tr mid : list Event) :
  (forall b p, f (EvToggle b p) = false) -> (forall p, f (EvSubmit p) = false) ->
  List.filter f (tr ++ enabling_events w ++ mid ++ submit_events env x)
  = List.filter f tr ++ List.filter f mid.
Proof.
  intros Ht Hs. rewrite !List.filter_app. unfold enabling_events, submit_events.
  destruct (enabled w), (onSubmit_prop env); cbn; rewrite ?Ht, ?Hs, ?app_nil_r;
    reflexivity.
Qed.

(** Toggling a kind that is not the active one constructs one processor and
    binds it. *)
Lemma toggleEffect_fresh env type options w :
  consistent w ->
  (forall p obj, getProcessor w = Some p -> heap w !! p = Some obj ->
     ptype obj <> type) ->
  all_succeed env = true ->
  let n := length (heap w) in
  let r := toggleEffect env type options w in
  completion r = Returned tt
  /\ videoTrack (final r) = Some (mkTrack (Some n))
  /\ enabled (final r) = true
  /\ heap (final r)
     = mark Disposed (getProcessor w) (heap w) ++ [mkProcessorObj type options Bound]
  /\ (forall q, is_bound (final r) q = true <-> q = n)
  /\ List.filter is_construct (trace (final r))
     = List.filter is_construct (trace w) ++ [EvConstruct n type options].
Proof.
  intros C K (Hf & Ht & Hs & _ & _ & Ho)%all_succeed_elim. cbn zeta.
  assert (forall q, is_bound
            (mkWorld (Some (mkTrack (Some (length (heap w))))) true
               (mark Disposed (getProcessor w) (heap w)
                ++ [mkProcessorObj type options Bound]) true
               (timers w ++ [SetProcessorPending false]) []) q = true
          <-> q = length (heap w)) as B.
  { intros q. rewrite is_bound_alloc, mark_length.
    case_decide as E; [now rewrite bool_decide_eq_true_2|].
    rewrite is_bound_mark_disposed. case_decide as E'; [split; [discriminate|tauto]|].
    split; [|tauto]. intros X. exfalso. apply E'. apply (C q). exact X. }
  destruct (videoTrack w) as [t|] eqn:Hv.
  - assert (getProcessor w = track_processor t) as G
      by (unfold getProcessor; now rewrite Hv).
    rewrite (toggleEffect_change env type options w t); auto.
    + unfold final, completion; cbn [fst snd videoTrack heap trace enabled].
      rewrite filter_events by reflexivity. rewrite G in *.
      split_and!; try reflexivity. exact B.
    + intros p Hp. rewrite <- G in Hp.
      destruct (consistent_lookup w p C Hp) as (obj & Hh & _). eauto.
  - rewrite (toggleEffect_no_track env type options w) by assumption.
    assert (getProcessor w = None) as G by (unfold getProcessor; now rewrite Hv).
    rewrite G in *. rewrite Ht.
    unfold final, completion; cbn [fst snd videoTrack heap trace mark enabled] in *.
    rewrite List.filter_app. split_and!; try reflexivity. exact B.
Qed.

Lemma toggleEffect_fresh_active env type options w :
  consistent w ->
  (forall p obj, getProcessor w = Some p -> heap w !! p = Some obj ->
     ptype obj <> type) ->
  all_succeed env = true ->
  let r := toggleEffect env type options w in
  completion r = Returned tt
  /\ active_descriptor (final r) = Some (type, options)
  /\ consistent (final r)
  /\ enabled (final r) = true.
Proof.
  intros C K A.
  destruct (toggleEffect_fresh env type options w C K A) as (R & V & E & H & B & _).
  cbn zeta.
  destruct (toggleEffect env type options w) as [c w1];
    unfold final, completion in *; cbn [fst snd] in *.
  split_and!; [assumption | | | assumption].
  - unfold active_descriptor, getProcessor, serialize. rewrite V, H. cbn.
    rewrite <- (mark_length Disposed (getProcessor w) (heap w)) at 1.
    now rewrite list_lookup_middle.
  - intros q. unfold getProcessor. rewrite V. cbn. rewrite B.
    split; congruence.
Qed.

(** Toggling a descriptor that is not selected makes it the active one. *)
Lemma toggleEffect_activates env type options w :
  consistent w -> isSelected type options w = false -> all_succeed env = true ->
  let r := toggleEffect env type options w in
  completion r = Returned tt
  /\ active_descriptor (final r) = Some (type, options)
  /\ consistent (final r)
  /\ enabled (final r) = true.
Proof.
  intros C S A. cbn zeta.
  destruct (active_descriptor w) as [[ty opts]|] eqn:D;
    [destruct (decide (ty = type)) as [->|Ek]|].
  - (* same kind: the options differ *)
    unfold active_descriptor in D.
    destruct (getProcessor w) as [p|] eqn:G; [|discriminate].
    destruct (consistent_lookup w p C G) as (obj & Hh & Hb).
    unfold serialize in D. rewrite Hh in D. injection D as Ek Eo.
    assert (poptions obj <> options) as Ne.
    { apply isSelected_false_iff in S.
      rewrite (active_descriptor_intro w p obj G Hh) in S. congruence. }
    destruct (all_succeed_elim env A) as (_ & Ht & _ & _ & Hu & Ho).
    rewrite (toggleEffect_update env type options w p obj);
      auto using getProcessor_track.
    unfold final, completion; cbn [fst snd enabled]. split_and!; try reflexivity.
    + unfold active_descriptor, serialize; cbn.
      rewrite list_lookup_alter_eq, Hh. cbn. now rewrite Ek.
    + intros q. rewrite is_bound_set_options. unfold getProcessor; cbn.
      rewrite <- G. apply (C q).
  - apply toggleEffect_fresh_active; auto.
    intros p obj G Hh. rewrite (active_descriptor_intro w p obj G Hh) in D.
    congruence.
  - apply toggleEffect_fresh_active; auto.
    intros p obj G Hh. rewrite (active_descriptor_intro w p obj G Hh) in D.
    discriminate.
Qed.

Ltac branch :=
  match goal with
  | |- context [if ?b then _ else _] =>
      lazymatch b with
      | context [if _ then _ else _] => fail
      | context [match _ with _ => _ end] => fail
      | _ => destruct b eqn:?
      end
  | |- context [match ?x with _ => _ end] =>
      lazymatch x with
      | context [if _ then _ else _] => fail
      | context [match _ with _ => _ end] => fail
      | _ => destruct x eqn:?
      end
  end.
Ltac crunch := run; repeat (branch; run).

(** Whatever the collaborators answer, the previous processor is disposed
    only in a state where the new one is bound. *)
Lemma toggleEffect_disposes_after_binding env type options w t p obj :
  videoTrack w = Some t -> track_processor t = Some p ->
  heap w !! p = Some obj -> pstate obj = Bound -> ptype obj <> type ->
  let r := toggleEffect env type options w in
  is_disposed (final r) p = true ->
  getProcessor (final r) = Some (length (heap w))
  /\ is_bound (final r) (length (heap w)) = true.
Proof.
  intros Hv Ht Hh Hb Hk.
  destruct w as [vt en h pend tm tr], env as [fs tg sp st up os], t as [old];
    cbn in *; subst.
  assert (forall e pe q t',
            isSelected type options
              (mkWorld (Some (mkTrack (Some p))) e h pe q t') = false) as Sel.
  { intros. apply isSelected_false_iff.
    rewrite (active_descriptor_intro _ p obj); [congruence | reflexivity | exact Hh]. }
  assert (alter (set_lifecycle Bound) (length h)
            (alter (set_lifecycle Disposed) p
               (h ++ [mkProcessorObj type options Unbound]))
          = alter (set_lifecycle Disposed) p h
            ++ [mkProcessorObj type options Bound]) as Hm.
  { rewrite alter_app_l by (now apply lookup_lt_Some in Hh).
    rewrite <- (length_alter (set_lifecycle Disposed) h p) at 1.
    now rewrite alter_alloc. }
  assert (bool_decide (pstate obj = Disposed) = false) as Nd
    by (rewrite Hb; reflexivity).
  unfold final, is_disposed, is_bound, getProcessor.
  destruct en, tg, fs, sp, os as [[]|]; run; rewrite ?Sel; run;
    unfold serialize; cbn; rewrite ?Hh; run;
    rewrite ?bool_decide_eq_true_2 by assumption; run;
    rewrite ?Hm, ?Hh, ?(lookup_alloc_old _ _ _ _ Hh), ?Nd; try discriminate.
  all: intros _; split; [reflexivity|].
  all: rewrite <- (length_alter (set_lifecycle Disposed) h p) at 1.
  all: now rewrite list_lookup_middle.
Qed.

(** Stopping the bound processor. *)
Lemma clearEffect_bound env w p :
  getProcessor w = Some p ->
  stopProcessor_rejects env = false -> onSubmit_prop env <> Some true ->
  clearEffect env w =
    (Returned tt,
     mkWorld (Some (mkTrack None)) (enabled w)
       (alter (set_lifecycle Disposed) p (heap w)) (processorPending w) (timers w)
       (trace w ++ [EvStopProcessor] ++ submit_events env None)).
Proof.
  intros G%getProcessor_track Hs Ho.
  destruct w as [vt en h pend tm tr], env as [fs tg sp st up os];
    cbn in *; subst. unfold submit_events; cbn.
  destruct os as [[]|]; try congruence; run; rewrite <- ?app_assoc; reflexivity.
Qed.

(** Clearing when the slot is empty. *)
Lemma clearEffect_empty env w t :
  videoTrack w = Some t -> track_processor t = None ->
  onSubmit_prop env <> Some true ->
  clearEffect env w =
    (Returned tt,
     mkWorld (videoTrack w) (enabled w) (heap w) (processorPending w) (timers w)
       (trace w ++ [EvStopProcessor] ++ submit_events env None)).
Proof.
  intros Hv Ht Ho.
  destruct w as [vt en h pend tm tr], env as [fs tg sp st up os], t as [x];
    cbn in *; subst. unfold submit_events; cbn.
  destruct os as [[]|]; try congruence; run; rewrite <- ?app_assoc; reflexivity.
Qed.

(** A call of [clearEffect] that returns found a track, and either an empty
    slot or a processor that it could stop. *)
Lemma clearEffect_returned env w :
  completion (clearEffect env w) = Returned tt ->
  onSubmit_prop env <> Some true
  /\ exists t, videoTrack w = Some t
     /\ (track_processor t = None \/ stopProcessor_rejects env = false).
Proof.
  destruct w as [vt en h pend tm tr], env as [fs tg sp st up os].
  unfold completion. crunch; try discriminate; intros _;
    (split; [congruence | eexists; split; [reflexivity | cbn; auto]]).
Qed.

Lemma runTimers_pending w q :
  timers w = q ++ [SetProcessorPending false] ->
  processorPending (runTimers w) = false.
Proof.
  intros E. unfold runTimers. rewrite E, foldl_app. reflexivity.
Qed.

(** Past the two calls that enable the camera, the timer that clears
    [processorPending] is always queued. *)
Lemma toggleEffect_queues_timer env type options w :
  (videoTrack w <> None /\ enabled w = true) \/ toggle_rejects env = false ->
  timers (final (toggleEffect env type options w))
  = timers w ++ [SetProcessorPending false].
Proof.
  intros H.
  destruct w as [vt en h pend tm tr], env as [fs tg sp st up os]; cbn in H.
  unfold final.
  destruct vt as [[x]|], en, tg;
    try (destruct H as [[? ?]|?]; congruence); crunch; reflexivity.
Qed.

(** Toggling the active kind with other options keeps the processor. *)
Lemma toggleEffect_in_place env type options1 options2 w p :
  consistent w -> all_succeed env = true ->
  getProcessor w = Some p ->
  active_descriptor w = Some (type, options1) -> options1 <> options2 ->
  let r := toggleEffect env type options2 w in
  completion r = Returned tt
  /\ getProcessor (final r) = Some p
  /\ active_descriptor (final r) = Some (type, options2)
  /\ consistent (final r)
  /\ is_bound (final r) p = true
  /\ length (heap (final r)) = length (heap w)
  /\ trace (final r)
     = trace w ++ enabling_events w ++ [EvUpdate p options2]
       ++ submit_events env (Some p).
Proof.
  intros C A G D Ne. cbn zeta.
  destruct (consistent_lookup w p C G) as (obj & Hh & Hb).
  rewrite (active_descriptor_intro w p obj G Hh) in D. injection D as Ek Eo.
  destruct (all_succeed_elim env A) as (_ & Ht & _ & _ & Hu & Ho).
  rewrite (toggleEffect_update env type options2 w p obj);
    auto using getProcessor_track; [|congruence].
  unfold final, completion, active_descriptor, getProcessor, serialize;
    cbn [fst snd videoTrack heap trace track_processor].
  rewrite list_lookup_alter_eq, Hh, length_alter. cbn. rewrite Ek.
  split_and!; try reflexivity.
  - intros q. rewrite is_bound_set_options. unfold getProcessor; cbn.
    rewrite <- G. apply (C q).
  - unfold is_bound; cbn. rewrite list_lookup_alter_eq, Hh. cbn.
    now rewrite Hb.
Qed.

Lemma getFaceLandmarksOptions_active w opts :
  active_descriptor w = Some (FACE_LANDMARKS, opts) ->
  getFaceLandmarksOptions w = opts.
Proof.
  unfold active_descriptor, getFaceLandmarksOptions.
  destruct (getProcessor w) as [p|]; [|discriminate]. now intros ->.
Qed.

Lemma getFaceLandmarksOptions_other w :
  (forall opts, active_descriptor w <> Some (FACE_LANDMARKS, opts)) ->
  getFaceLandmarksOptions w = default_face_options.
Proof.
  unfold active_descriptor, getFaceLandmarksOptions. intros H.
  destruct (getProcessor w) as [p|]; [|reflexivity].
  destruct (serialize p w) as [[[] opts]|]; try reflexivity.
  now destruct (H opts).
Qed.

Lemma toggleFaceLandmarkEffect_eq env effect w :
  toggleFaceLandmarkEffect env effect w =
    let newOptions :=
      spread_with_flipped (getFaceLandmarksOptions w) (effect_key effect) in
    if negb (truthy (js_get newOptions "showGlasses"))
       && negb (truthy (js_get newOptions "showFrench"))
    then clearEffect env w
    else toggleEffect env FACE_LANDMARKS newOptions w.
Proof.
  unfold toggleFaceLandmarkEffect, mbind, Async_bind, bind, gets. cbn zeta.
  now destruct (_ && _).
Qed.

(** On an existing track, binding a fresh processor ends with the parent
    being handed that processor. *)
Lemma toggleEffect_fresh_submits env type options w :
  consistent w -> videoTrack w <> None ->
  (forall p obj, getProcessor w = Some p -> heap w !! p = Some obj ->
     ptype obj <> type) ->
  all_succeed env = true -> onSubmit_prop env = Some false ->
  let r := toggleEffect env type options w in
  completion r = Returned tt
  /\ exists events,
       trace (final r) = trace w ++ events ++ [EvSubmit (getProcessor (final r))].
Proof.
  intros C Hv K A Hos. cbn zeta.
  destruct (videoTrack w) as [t|] eqn:Et; [clear Hv|congruence].
  destruct (all_succeed_elim env A) as (Hf & Ht & Hsp & _ & _ & Ho).
  assert (getProcessor w = track_processor t) as G
    by (unfold getProcessor; now rewrite Et).
  rewrite (toggleEffect_change env type options w t); auto.
  - unfold final, completion, getProcessor, submit_events; cbn. rewrite Hos.
    split; [reflexivity|].
    exists (enabling_events w
            ++ [EvConstruct (length (heap w)) type options;
                EvSetProcessor (Some (length (heap w)))]).
    now rewrite <- !app_assoc.
  - intros p Hp. rewrite <- G in Hp.
    destruct (consistent_lookup w p C Hp) as (obj & Hh & _). eauto.
Qed.

(** ** The claims *)

(** C1, as the specification states it, fails on two objects that differ by
    the order of their keys only: the processor was built with
    [{showGlasses: true, showFrench: false}] and the query lists the same
    properties in the other order. *)
Lemma isSelected_key_order_counterexample :
  well_formed_object glasses_first /\ well_formed_object french_first
  /\ ~ isSelected_by_deep_equality FACE_LANDMARKS french_first world_with_glasses.
Proof.
  split_and!; [unfold well_formed_object; compute_done..|].
  intros [_ H].
  assert (isSelected FACE_LANDMARKS french_first world_with_glasses = true) as X.
  { apply H. exists glasses_first. split; [reflexivity|]. now vm_compute. }
  vm_compute in X. discriminate X.
Qed.

(** C1 (amended): [isSelected(type, options)] is true exactly when the track
    has an active processor whose serialized kind is [type] and whose
    serialized options have the same JSON text as [options], that is the same
    properties, in the same order, with the same values.  The comparison is by
    value and implies deep equality, but it depends on the order of the
    keys. *)
Theorem isSelected_iff_same_json_text (type : ProcessorType)
    (options : BackgroundOptions) (w : World) :
  (isSelected type options w = true
   <-> exists opts, active_descriptor w = Some (type, opts)
                    /\ JSON.stringify opts = JSON.stringify options)
  /\ (isSelected type options w = true
      <-> active_descriptor w = Some (type, options))
  /\ (isSelected type options w = true
      -> exists opts, active_descriptor w = Some (type, opts)
                      /\ deepEqual opts options = true).
Proof.
  split_and!.
  - rewrite isSelected_true_iff. split.
    + intros H. eauto.
    + intros (opts & H & ->%JSONFacts.stringify_inj). assumption.
  - apply isSelected_true_iff.
  - intros H%isSelected_true_iff. exists options. split; [assumption|].
    now apply bool_decide_eq_true_2.
Qed.

Lemma world_with_glasses_consistent : consistent world_with_glasses.
Proof. intros [|p]; cbn; split; try discriminate; reflexivity. Qed.

Lemma world_camera_off_consistent : consistent world_camera_off.
Proof. intros p; cbn; split; discriminate. Qed.

Lemma world_track_disabled_consistent : consistent world_track_disabled.
Proof. intros p; cbn; split; discriminate. Qed.

(** C2, as the specification states it, fails on a descriptor that is
    deep-equal to the active one with its keys in another order: the call
    takes the update branch and the processor stays active. *)
Lemma toggleEffect_key_order_counterexample :
  all_succeed env_ok = true
  /\ ~ toggles_off_by_deep_equality env_ok FACE_LANDMARKS french_first
        world_with_glasses
  /\ active_descriptor
       (final (toggleEffect env_ok FACE_LANDMARKS french_first world_with_glasses))
     = Some (FACE_LANDMARKS, french_first).
Proof.
  split_and!; [reflexivity | | reflexivity].
  intros H.
  assert (getProcessor
            (final (toggleEffect env_ok FACE_LANDMARKS french_first
                      world_with_glasses)) = None) as X.
  { apply H. exists glasses_first. split; [reflexivity | now vm_compute]. }
  vm_compute in X. discriminate X.
Qed.

(** C2 (amended): toggling the descriptor that is active, that is the one with
    the active kind and the same properties in the same order, clears the
    processor (it is stopped on the track and the parent is told that none is
    active); hence toggling a descriptor that is not selected twice in a row
    leaves no active processor. *)
Theorem toggleEffect_toggle_symmetry (env1 env2 : Env) (type : ProcessorType)
    (options : BackgroundOptions) (w : World) :
  consistent w -> all_succeed env1 = true -> all_succeed env2 = true ->
  (active_descriptor w = Some (type, options) ->
     let r := toggleEffect env1 type options w in
     completion r = Returned tt
     /\ getProcessor (final r) = None
     /\ (forall q, is_bound (final r) q = false)
     /\ (forall p, getProcessor w = Some p -> is_disposed (final r) p = true)
     /\ trace (final r)
        = trace w ++ enabling_events w ++ [EvStopProcessor]
          ++ submit_events env1 None)
  /\ (isSelected type options w = false ->
      let w1 := final (toggleEffect env1 type options w) in
      let r := toggleEffect env2 type options w1 in
      active_descriptor w1 = Some (type, options)
      /\ completion r = Returned tt
      /\ getProcessor (final r) = None
      /\ (forall q, is_bound (final r) q = false)).
Proof.
  intros C A1 A2. split.
  - intros D. destruct (all_succeed_elim env1 A1) as (_ & Ht & _ & Hs & _ & Ho).
    apply toggleEffect_deactivates; auto.
  - intros S. cbn zeta.
    destruct (toggleEffect_activates env1 type options w C S A1) as (_ & D & C1 & _).
    destruct (all_succeed_elim env2 A2) as (_ & Ht & _ & Hs & _ & Ho).
    destruct (toggleEffect_deactivates env2 type options _ C1 D) as (R & G & B & _);
      auto.
Qed.

Lemma toggleEffect_toggle_symmetry_witness :
  consistent world_camera_off /\ all_succeed env_ok = true
  /\ isSelected BLUR blur_light world_camera_off = false
  /\ getProcessor
       (final (toggleEffect env_ok BLUR blur_light
                 (final (toggleEffect env_ok BLUR blur_light world_camera_off))))
     = None.
Proof.
  split_and!; [exact world_camera_off_consistent | reflexivity | reflexivity |].
  apply (toggleEffect_toggle_symmetry env_ok env_ok BLUR blur_light
           world_camera_off world_camera_off_consistent eq_refl eq_refl).
  reflexivity.
Defined.

(** C3: toggling the kind that is active with other options updates the
    existing processor in place: it stays bound under the same reference, no
    processor is constructed, stopped or rebound; from a state where the kind
    is not active, two calls with different options construct exactly one
    processor. *)
Theorem toggleEffect_updates_in_place (env1 env2 : Env) (type : ProcessorType)
    (options1 options2 : BackgroundOptions) (w : World) :
  consistent w -> all_succeed env1 = true -> all_succeed env2 = true ->
  options1 <> options2 ->
  (forall p, getProcessor w = Some p ->
     active_descriptor w = Some (type, options1) ->
     let r := toggleEffect env2 type options2 w in
     completion r = Returned tt
     /\ getProcessor (final r) = Some p
     /\ active_descriptor (final r) = Some (type, options2)
     /\ is_bound (final r) p = true
     /\ length (heap (final r)) = length (heap w)
     /\ trace (final r)
        = trace w ++ enabling_events w ++ [EvUpdate p options2]
          ++ submit_events env2 (Some p))
  /\ ((forall p obj, getProcessor w = Some p -> heap w !! p = Some obj ->
         ptype obj <> type) ->
      let n := length (heap w) in
      let w1 := final (toggleEffect env1 type options1 w) in
      let w2 := final (toggleEffect env2 type options2 w1) in
      getProcessor w1 = Some n
      /\ getProcessor w2 = Some n
      /\ active_descriptor w2 = Some (type, options2)
      /\ is_bound w2 n = true
      /\ List.filter is_construct (trace w2)
         = List.filter is_construct (trace w) ++ [EvConstruct n type options1]).
Proof.
  intros C A1 A2 Ne. split.
  - intros p G D. cbn zeta.
    destruct (toggleEffect_in_place env2 type options1 options2 w p C A2 G D Ne)
      as (R & G' & D' & _ & B & L & T).
    split_and!; assumption.
  - intros K. cbn zeta.
    destruct (toggleEffect_fresh env1 type options1 w C K A1)
      as (_ & V & _ & _ & _ & F).
    destruct (toggleEffect_fresh_active env1 type options1 w C K A1)
      as (_ & D & C1 & _).
    set (w1 := final (toggleEffect env1 type options1 w)) in *.
    assert (getProcessor w1 = Some (length (heap w))) as G
      by (unfold getProcessor; now rewrite V).
    destruct (toggleEffect_in_place env2 type options1 options2 w1 _ C1 A2 G D Ne)
      as (_ & G' & D' & _ & B & _ & T).
    split_and!; try assumption.
    rewrite T, filter_events, F by reflexivity. cbn. now rewrite app_nil_r.
Qed.

Lemma toggleEffect_updates_in_place_witness :
  consistent world_camera_off /\ all_succeed env_ok = true
  /\ blur_light <> blur_normal
  /\ List.filter is_construct
       (trace (final (toggleEffect env_ok BLUR blur_normal
                        (final (toggleEffect env_ok BLUR blur_light
                                  world_camera_off)))))
     = [EvConstruct 0 BLUR blur_light].
Proof.
  assert (blur_light <> blur_normal) as Ne by discriminate.
  split_and!; [exact world_camera_off_consistent | reflexivity | exact Ne |].
  destruct (toggleEffect_updates_in_place env_ok env_ok BLUR blur_light
              blur_normal world_camera_off world_camera_off_consistent
              eq_refl eq_refl Ne) as [_ Two].
  destruct Two as (_ & _ & _ & _ & F); [discriminate|]. exact F.
Defined.

(** C4: toggling a kind that is not the active one (or toggling when no
    processor is active) constructs one processor for the descriptor and binds
    it, through [setProcessor] when the track exists; when the collaborators
    succeed it is afterwards the one and only bound processor and the previous
    one is disposed; and whatever the collaborators answer, the previous
    processor is disposed only in a state where the new one is bound. *)
Theorem toggleEffect_switches_processor (env : Env) (type : ProcessorType)
    (options : BackgroundOptions) (w : World) :
  consistent w ->
  (forall p obj, getProcessor w = Some p -> heap w !! p = Some obj ->
     ptype obj <> type) ->
  let n := length (heap w) in
  let r := toggleEffect env type options w in
  (all_succeed env = true ->
     completion r = Returned tt
     /\ getProcessor (final r) = Some n
     /\ active_descriptor (final r) = Some (type, options)
     /\ (forall q, is_bound (final r) q = true <-> q = n)
     /\ (forall p, getProcessor w = Some p -> is_disposed (final r) p = true)
     /\ List.filter is_construct (trace (final r))
        = List.filter is_construct (trace w) ++ [EvConstruct n type options]
     /\ (videoTrack w <> None ->
         trace (final r)
         = trace w ++ enabling_events w
           ++ [EvConstruct n type options; EvSetProcessor (Some n)]
           ++ submit_events env (Some n)))
  /\ (forall p, getProcessor w = Some p -> is_disposed (final r) p = true ->
      getProcessor (final r) = Some n /\ is_bound (final r) n = true).
Proof.
  intros C K. cbn zeta. split.
  - intros A.
    destruct (toggleEffect_fresh env type options w C K A)
      as (R & V & _ & H & B & F).
    destruct (toggleEffect_fresh_active env type options w C K A) as (_ & D & _).
    destruct (all_succeed_elim env A) as (Hf & Ht & Hs & _ & _ & Ho).
    split_and!; try assumption.
    + unfold getProcessor. now rewrite V.
    + intros p Gp. destruct (consistent_lookup w p C Gp) as (obj & Hh & _).
      unfold is_disposed. rewrite H, Gp. cbn.
      rewrite lookup_app_l by (rewrite length_alter; now apply lookup_lt_Some in Hh).
      now rewrite list_lookup_alter_eq, Hh.
    + intros Hv. destruct (videoTrack w) as [t|] eqn:Et; [clear Hv|congruence].
      assert (getProcessor w = track_processor t) as G
        by (unfold getProcessor; now rewrite Et).
      rewrite (toggleEffect_change env type options w t); auto.
      intros p Hp. rewrite <- G in Hp.
      destruct (consistent_lookup w p C Hp) as (obj & Hh & _). eauto.
  - intros p Gp. destruct (consistent_lookup w p C Gp) as (obj & Hh & Hb).
    pose proof (getProcessor_track w p Gp) as Hv.
    apply (toggleEffect_disposes_after_binding env type options w
             (mkTrack (Some p)) p obj); eauto.
Qed.

Lemma toggleEffect_switches_processor_witness :
  consistent world_with_glasses
  /\ active_descriptor
       (final (toggleEffect env_ok BLUR blur_light world_with_glasses))
     = Some (BLUR, blur_light).
Proof.
  split; [exact world_with_glasses_consistent|].
  apply (toggleEffect_switches_processor env_ok BLUR blur_light
           world_with_glasses world_with_glasses_consistent).
  - intros [|p] obj G Hh; [|discriminate G].
    injection Hh as <-. discriminate.
  - reflexivity.
Defined.









(** C6 fails on the code: when enabling the camera fails, in the branch taken
    without a video track or before the [try] block when the track is
    disabled, the call is rejected without queueing the timer and
    [processorPending] stays true. *)
Theorem toggleEffect_pending_stuck (env : Env) (type : ProcessorType)
    (options : BackgroundOptions) (w : World) :
  videoTrack w = None \/ enabled w = false ->
  toggle_rejects env = true -> timers w = [] ->
  let r := toggleEffect env type options w in
  completion r = Thrown TrackUnavailable
  /\ timers (final r) = []
  /\ processorPending (runTimers (final r)) = true.
Proof.
  intros H Ht Hq.
  destruct w as [vt en h pend tm tr], env as [fs tg sp st up os];
    cbn in *; subst. unfold final, completion, runTimers.
  destruct vt as [[x]|], en; try (destruct H; discriminate); crunch; auto.
Qed.

Lemma toggleEffect_pending_stuck_witness :
  videoTrack world_camera_off = None /\ toggle_rejects env_camera_fails = true
  /\ processorPending
       (runTimers (final (toggleEffect env_camera_fails BLUR blur_light
                            world_camera_off)))
     = true.
Proof.
  split_and!; [reflexivity..|].
  apply (toggleEffect_pending_stuck env_camera_fails BLUR blur_light
           world_camera_off (or_introl eq_refl) eq_refl eq_refl).
Defined.

(** Where the timer is queued, the event loop then clears
    [processorPending], whether the operation succeeded or failed. *)
Lemma toggleEffect_clears_pending (env : Env) (type : ProcessorType)
    (options : BackgroundOptions) (w : World) :
  (videoTrack w <> None /\ enabled w = true) \/ toggle_rejects env = false ->
  processorPending (runTimers (final (toggleEffect env type options w))) = false.
Proof.
  intros H. eapply runTimers_pending. now apply toggleEffect_queues_timer.
Qed.

(** C7: from an active face-landmarks processor showing glasses only, toggling
    French on gives both flags on the same processor, toggling glasses off
    then gives French only, still on the same processor, and toggling French
    off then clears the processor. *)
Theorem toggleFaceLandmarkEffect_scenario (env1 env2 env3 : Env) (w : World)
    (p : ProcRef) :
  consistent w -> getProcessor w = Some p ->
  active_descriptor w = Some (FACE_LANDMARKS, glasses_first) ->
  all_succeed env1 = true -> all_succeed env2 = true -> all_succeed env3 = true ->
  let w1 := final (toggleFaceLandmarkEffect env1 french w) in
  let w2 := final (toggleFaceLandmarkEffect env2 glasses w1) in
  let r3 := toggleFaceLandmarkEffect env3 french w2 in
  (getProcessor w1 = Some p
   /\ active_descriptor w1 = Some (FACE_LANDMARKS, both_flags))
  /\ (getProcessor w2 = Some p
      /\ active_descriptor w2 = Some (FACE_LANDMARKS, french_only)
      /\ is_bound w2 p = true)
  /\ (completion r3 = Returned tt
      /\ getProcessor (final r3) = None
      /\ active_descriptor (final r3) = None
      /\ is_disposed (final r3) p = true)
  /\ length (heap (final r3)) = length (heap w).
Proof.
  intros C G D A1 A2 A3. cbn zeta.
  (* French on: an update in place *)
  assert (toggleFaceLandmarkEffect env1 french w
          = toggleEffect env1 FACE_LANDMARKS both_flags w) as ->.
  { rewrite toggleFaceLandmarkEffect_eq, (getFaceLandmarksOptions_active w _ D).
    reflexivity. }
  destruct (toggleEffect_in_place env1 FACE_LANDMARKS glasses_first both_flags
              w p C A1 G D) as (_ & G1 & D1 & C1 & _ & L1 & _); [discriminate|].
  set (w1 := final (toggleEffect env1 FACE_LANDMARKS both_flags w)) in *.
  (* glasses off: another update in place *)
  assert (toggleFaceLandmarkEffect env2 glasses w1
          = toggleEffect env2 FACE_LANDMARKS french_only w1) as ->.
  { rewrite toggleFaceLandmarkEffect_eq, (getFaceLandmarksOptions_active w1 _ D1).
    reflexivity. }
  destruct (toggleEffect_in_place env2 FACE_LANDMARKS both_flags french_only
              w1 p C1 A2 G1 D1) as (_ & G2 & D2 & C2 & B2 & L2 & _);
    [discriminate|].
  set (w2 := final (toggleEffect env2 FACE_LANDMARKS french_only w1)) in *.
  (* French off: both flags are off, the processor is stopped *)
  assert (toggleFaceLandmarkEffect env3 french w2 = clearEffect env3 w2) as ->.
  { rewrite toggleFaceLandmarkEffect_eq, (getFaceLandmarksOptions_active w2 _ D2).
    reflexivity. }
  destruct (all_succeed_elim env3 A3) as (_ & _ & _ & Hs & _ & Ho).
  rewrite (clearEffect_bound env3 w2 p G2 Hs Ho).
  destruct (consistent_lookup w2 p C2 G2) as (obj & Hh & _).
  unfold final, completion, active_descriptor, getProcessor, is_disposed;
    cbn [fst snd videoTrack heap track_processor].
  rewrite list_lookup_alter_eq, Hh, length_alter, L2, L1.
  split_and!; auto.
Qed.

Lemma toggleFaceLandmarkEffect_scenario_witness :
  consistent world_with_glasses
  /\ active_descriptor world_with_glasses = Some (FACE_LANDMARKS, glasses_first)
  /\ all_succeed env_ok = true
  /\ getProcessor
       (final (toggleFaceLandmarkEffect env_ok french
          (final (toggleFaceLandmarkEffect env_ok glasses
             (final (toggleFaceLandmarkEffect env_ok french
                world_with_glasses))))))
     = None.
Proof.
  split_and!; [exact world_with_glasses_consistent | reflexivity..|].
  apply (toggleFaceLandmarkEffect_scenario env_ok env_ok env_ok
           world_with_glasses 0 world_with_glasses_consistent
           eq_refl eq_refl eq_refl eq_refl eq_refl).
Defined.

(** C8, as the specification states it, fails when the parent listens: the
    second call invokes [onSubmit(undefined)] once more. *)
Lemma clearEffect_second_call_counterexample :
  ~ second_clear_unobservable env_ok env_ok world_with_glasses.
Proof.
  intros (_ & _ & _ & H). vm_compute in H. discriminate H.
Qed.

(** C8 (amended): a call of [clearEffect] that returns leaves no processor on
    the track and the stopped one disposed; a second call right after it stops
    nothing, changes neither the track nor the store nor the component state
    and raises no error, but it calls [videoTrack.stopProcessor()] and, when
    the parent gave the callback, [onSubmit(undefined)] again. *)
Theorem clearEffect_twice (env1 env2 : Env) (w : World) :
  consistent w ->
  completion (clearEffect env1 w) = Returned tt ->
  onSubmit_prop env2 <> Some true ->
  let w1 := final (clearEffect env1 w) in
  let r2 := clearEffect env2 w1 in
  (getProcessor w1 = None
   /\ (forall q, is_bound w1 q = false)
   /\ (forall p, getProcessor w = Some p -> is_disposed w1 p = true))
  /\ completion r2 = Returned tt
  /\ (videoTrack (final r2) = videoTrack w1
      /\ enabled (final r2) = enabled w1
      /\ heap (final r2) = heap w1
      /\ processorPending (final r2) = processorPending w1
      /\ timers (final r2) = timers w1)
  /\ trace (final r2) = trace w1 ++ [EvStopProcessor] ++ submit_events env2 None.
Proof.
  intros C R Ho2. cbn zeta.
  destruct (clearEffect_returned env1 w R) as (Ho1 & t & Hv & Hs).
  assert (getProcessor w = track_processor t) as G
    by (unfold getProcessor; now rewrite Hv).
  assert (exists en h pe tm tr,
            final (clearEffect env1 w) = mkWorld (Some (mkTrack None)) en h pe tm tr
            /\ (forall q, is_bound (mkWorld None en h pe tm tr) q = false)
            /\ (forall p, getProcessor w = Some p ->
                  is_disposed (mkWorld None en h pe tm tr) p = true)) as X.
  { destruct (track_processor t) as [p|] eqn:Et.
    - destruct Hs as [?|Hs]; [discriminate|].
      rewrite (clearEffect_bound env1 w p G Hs Ho1).
      destruct (consistent_lookup w p C G) as (obj & Hh & _).
      do 5 eexists. split_and!; [reflexivity| |].
      + intros q. rewrite (is_bound_mark_disposed (heap w) (Some p)).
        case_decide as E; [reflexivity|].
        destruct (is_bound _ q) eqn:B; [|reflexivity].
        exfalso. apply E. rewrite <- G. apply (C q). exact B.
      + intros p' Gp. assert (p' = p) as -> by congruence.
        unfold is_disposed; cbn. now rewrite list_lookup_alter_eq, Hh.
    - rewrite (clearEffect_empty env1 w t Hv Et Ho1).
      destruct t as [x]; cbn in Et; subst x. rewrite Hv.
      do 5 eexists. split_and!; [reflexivity| |].
      + intros q. destruct (is_bound _ q) eqn:B; [|reflexivity].
        apply (C q) in B. congruence.
      + intros p Gp. congruence. }
  destruct X as (en & h & pe & tm & tr & -> & B & D).
  rewrite (clearEffect_empty env2 _ (mkTrack None)) by (reflexivity || assumption).
  unfold final, completion, getProcessor; cbn. split_and!; auto.
Qed.

Lemma clearEffect_twice_witness :
  consistent world_with_glasses
  /\ completion (clearEffect env_ok world_with_glasses) = Returned tt
  /\ trace (final (clearEffect env_ok (final (clearEffect env_ok world_with_glasses))))
     = [EvStopProcessor; EvSubmit None; EvStopProcessor; EvSubmit None].
Proof.
  split_and!; [exact world_with_glasses_consistent | reflexivity |].
  apply (clearEffect_twice env_ok env_ok world_with_glasses
           world_with_glasses_consistent eq_refl).
  discriminate.
Defined.

(** C9: a call of [toggleEffect] made while no video track exists never
    invokes [onSubmit], although it constructs a processor and hands it to the
    call that enables the camera; on an existing track every successful path
    ends by invoking [onSubmit] with the processor then on the track
    ([undefined] after a clear). *)
Theorem toggleEffect_without_track_never_submits (env : Env)
    (type : ProcessorType) (options : BackgroundOptions) (w : World) :
  videoTrack w = None ->
  let r := toggleEffect env type options w in
  (exists events, trace (final r) = trace w ++ events
                  /\ List.filter is_submit events = [])
  /\ (factory_supported env = true ->
      trace (final r)
      = trace w ++ [EvConstruct (length (heap w)) type options;
                    EvToggle true (Some (length (heap w)))]
      /\ (toggle_rejects env = false ->
          active_descriptor (final r) = Some (type, options)))
  /\ (forall w', consistent w' -> videoTrack w' <> None ->
      all_succeed env = true -> onSubmit_prop env = Some false ->
      let r' := toggleEffect env type options w' in
      completion r' = Returned tt
      /\ exists events,
           trace (final r')
           = trace w' ++ events ++ [EvSubmit (getProcessor (final r'))]).
Proof.
  intros Hv. cbn zeta. split_and!.
  - destruct w as [vt en h pend tm tr], env as [fs tg sp st up os];
      cbn in *; subst. unfold final.
    destruct fs, tg; run; rewrite <- ?app_assoc; eexists;
      (split; [reflexivity | reflexivity]).
  - intros Hf. rewrite (toggleEffect_no_track env type options w Hv Hf). cbn zeta.
    split; [now destruct (toggle_rejects env)|]. intros ->.
    unfold final, active_descriptor, getProcessor, serialize; cbn.
    now rewrite list_lookup_middle.
  - intros w' C Hv' A Hos.
    destruct (all_succeed_elim env A) as (Hf & Ht & Hsp & Hst & Hu & Ho).
    assert (forall x, submit_events env x = [EvSubmit x]) as Sub
      by (intros; unfold submit_events; now rewrite Hos).
    destruct (isSelected type options w') eqn:S.
    + (* the active descriptor: cleared, the parent gets undefined *)
      apply isSelected_true_iff in S.
      destruct (toggleEffect_deactivates env type options w' C S) as (R & G & _ & _ & T);
        auto.
      split; [exact R|]. rewrite T, G, Sub.
      exists (enabling_events w' ++ [EvStopProcessor]). now rewrite <- !app_assoc.
    + destruct (active_descriptor w') as [[ty opts]|] eqn:D;
        [destruct (decide (ty = type)) as [->|Ek]|].
      * (* the active kind with other options: updated in place *)
        assert (exists p, getProcessor w' = Some p) as [p G].
        { unfold active_descriptor in D. destruct (getProcessor w'); eauto.
          discriminate. }
        destruct (toggleEffect_in_place env type opts options w' p C A G D)
          as (R & G1 & _ & _ & _ & _ & T).
        { apply isSelected_false_iff in S. congruence. }
        split; [exact R|]. rewrite T, G1, Sub.
        exists (enabling_events w' ++ [EvUpdate p options]).
        now rewrite <- !app_assoc.
      * apply toggleEffect_fresh_submits; auto.
        intros p obj G Hh. rewrite (active_descriptor_intro w' p obj G Hh) in D.
        congruence.
      * apply toggleEffect_fresh_submits; auto.
        intros p obj G Hh. rewrite (active_descriptor_intro w' p obj G Hh) in D.
        discriminate.
Qed.

Lemma toggleEffect_without_track_never_submits_witness :
  videoTrack world_camera_off = None
  /\ List.filter is_submit
       (trace (final (toggleEffect env_ok VIRTUAL
                        [("imagePath", JStr "/assets/backgrounds/1.jpg")]
                        world_camera_off)))
     = [].
Proof.
  split; [reflexivity|].
  destruct (toggleEffect_without_track_never_submits env_ok VIRTUAL
              [("imagePath", JStr "/assets/backgrounds/1.jpg")]
              world_camera_off eq_refl) as ((events & T & F) & _).
  rewrite T. exact F.
Defined.

(** C10: when no processor is active or the active one is not a face-landmarks
    processor, [getFaceLandmarksOptions] returns
    [{showGlasses: false, showFrench: false}], and
    [toggleFaceLandmarkEffect] then applies a face-landmarks descriptor with
    the requested flag true and the other false. *)
Theorem toggleFaceLandmarkEffect_from_other_kind (env : Env)
    (effect : FaceEffect) (w : World) :
  (forall opts, active_descriptor w <> Some (FACE_LANDMARKS, opts)) ->
  getFaceLandmarksOptions w
  = [("showGlasses", JBool false); ("showFrench", JBool false)]
  /\ toggleFaceLandmarkEffect env effect w
     = toggleEffect env FACE_LANDMARKS (single_flag effect) w
  /\ (consistent w -> all_succeed env = true ->
      let r := toggleFaceLandmarkEffect env effect w in
      completion r = Returned tt
      /\ active_descriptor (final r) = Some (FACE_LANDMARKS, single_flag effect)
      /\ getProcessor (final r) = Some (length (heap w))).
Proof.
  intros H. pose proof (getFaceLandmarksOptions_other w H) as E.
  assert (toggleFaceLandmarkEffect env effect w
          = toggleEffect env FACE_LANDMARKS (single_flag effect) w) as T.
  { rewrite toggleFaceLandmarkEffect_eq, E. now destruct effect. }
  split_and!; [exact E | exact T |].
  intros C A. cbn zeta. rewrite T.
  assert (forall p obj, getProcessor w = Some p -> heap w !! p = Some obj ->
            ptype obj <> FACE_LANDMARKS) as K.
  { intros p obj G Hh Ek. apply (H (poptions obj)).
    rewrite (active_descriptor_intro w p obj G Hh). now rewrite Ek. }
  destruct (toggleEffect_fresh env FACE_LANDMARKS (single_flag effect) w C K A)
    as (R & V & _).
  destruct (toggleEffect_fresh_active env FACE_LANDMARKS (single_flag effect) w C K A)
    as (_ & D & _).
  split_and!; [exact R | exact D |]. unfold getProcessor. now rewrite V.
Qed.

Lemma toggleFaceLandmarkEffect_from_other_kind_witness :
  (forall opts, active_descriptor world_camera_off <> Some (FACE_LANDMARKS, opts))
  /\ active_descriptor
       (final (toggleFaceLandmarkEffect env_ok glasses world_camera_off))
     = Some (FACE_LANDMARKS,
             [("showGlasses", JBool true); ("showFrench", JBool false)]).
Proof.
  assert (forall opts,
            active_descriptor world_camera_off <> Some (FACE_LANDMARKS, opts))
    as H by discriminate.
  split; [exact H|].
  destruct (toggleFaceLandmarkEffect_from_other_kind env_ok glasses
              world_camera_off H) as (_ & _ & X).
  destruct (X world_camera_off_consistent eq_refl) as (_ & D & _). exact D.
Defined.

(** * Further properties of the component *)

(** ** Object reads and writes *)

Lemma js_get_as_map (o : BackgroundOptions) (key : string) :
  js_get o key = as_map o !! key.
Proof.
  unfold as_map. induction o as [|[k v] o IH]; cbn; [now rewrite lookup_empty|].
  destruct (String.eqb_spec k key) as [->|Ne].
  - now rewrite lookup_insert_eq.
  - now rewrite lookup_insert_ne.
Qed.

Lemma js_set_as_map (o : BackgroundOptions) (key : string) (v : JsVal) :
  as_map (js_set o key v) = <[key := v]> (as_map o).
Proof.
  unfold as_map. induction o as [|[k x] o IH]; cbn; [reflexivity|].
  destruct (String.eqb_spec k key) as [->|Ne]; cbn.
  - now rewrite insert_insert_eq.
  - rewrite IH. now apply insert_insert_ne.
Qed.

Lemma js_set_keys (o : BackgroundOptions) (key : string) (v : JsVal) :
  is_Some (js_get o key) -> (js_set o key v).*1 = o.*1.
Proof.
  induction o as [|[k x] o IH]; cbn; [intros [? [=]]|].
  destruct (String.eqb_spec k key) as [->|Ne]; cbn; [reflexivity|].
  intros H. now rewrite IH.
Qed.

Lemma js_set_absent (o : BackgroundOptions) (key : string) (v : JsVal) :
  js_get o key = None -> js_set o key v = o ++ [(key, v)].
Proof.
  induction o as [|[k x] o IH]; cbn; [reflexivity|].
  destruct (String.eqb_spec k key) as [->|Ne]; [discriminate|].
  intros H. now rewrite IH.
Qed.

Lemma js_get_None_keys (o : BackgroundOptions) (key : string) :
  js_get o key = None -> key ∉ o.*1.
Proof.
  rewrite js_get_as_map. unfold as_map. intros H.
  now apply not_elem_of_list_to_map_2.
Qed.

(** The object [{...currentOptions, [key]: !currentOptions[key]}] built by
    [toggleFaceLandmarkEffect]: the property [key] holds the negation of its
    former truth value, every other property is unchanged, a key that was
    present keeps its place (so the order of keys is unchanged), a key that
    was absent is added last with [true], and the keys stay distinct. *)
Theorem spread_with_flipped_spec (o : BackgroundOptions) (key : string) :
  js_get (spread_with_flipped o key) key
  = Some (JBool (negb (truthy (js_get o key))))
  /\ (forall k, k <> key -> js_get (spread_with_flipped o key) k = js_get o k)
  /\ as_map (spread_with_flipped o key)
     = <[key := JBool (negb (truthy (js_get o key)))]> (as_map o)
  /\ (is_Some (js_get o key) -> (spread_with_flipped o key).*1 = o.*1)
  /\ (js_get o key = None ->
      spread_with_flipped o key = o ++ [(key, JBool true)])
  /\ (well_formed_object o -> well_formed_object (spread_with_flipped o key)).
Proof.
  unfold spread_with_flipped. split_and!.
  - now rewrite js_get_as_map, js_set_as_map, lookup_insert_eq.
  - intros k Ne. rewrite !js_get_as_map, js_set_as_map.
    now rewrite lookup_insert_ne.
  - apply js_set_as_map.
  - apply js_set_keys.
  - intros H. rewrite H. now apply js_set_absent.
  - unfold well_formed_object. intros W.
    destruct (js_get o key) as [x|] eqn:E.
    + rewrite js_set_keys; [assumption | rewrite E; eauto].
    + rewrite js_set_absent by assumption. rewrite fmap_app. cbn.
      apply NoDup_app. split_and!; [assumption | | apply NoDup_singleton].
      intros k Hk ->%list_elem_of_singleton.
      now apply (js_get_None_keys o key E).
Qed.

(** Two well-formed objects that list the same keys in the same order and are
    equal as maps are the same object. *)
Lemma as_map_same_keys (o1 o2 : BackgroundOptions) :
  well_formed_object o1 -> o1.*1 = o2.*1 -> as_map o1 = as_map o2 -> o1 = o2.
Proof.
  unfold well_formed_object, as_map. revert o2.
  induction o1 as [|[k v1] o1 IH]; intros [|[k' v2] o2] W K M; cbn in *;
    try discriminate K; [reflexivity|].
  injection K as <- K. apply NoDup_cons in W as [Nk W].
  assert (list_to_map o1 !! k = (None : option JsVal)) as N1
    by now apply not_elem_of_list_to_map_1.
  assert (list_to_map o2 !! k = (None : option JsVal)) as N2
    by (apply not_elem_of_list_to_map_1; now rewrite <- K).
  assert (v1 = v2) as <-.
  { apply (f_equal (fun m : gmap string JsVal => m !! k)) in M.
    rewrite !lookup_insert_eq in M. congruence. }
  f_equal. apply IH; [assumption..|].
  apply (f_equal (delete k)) in M.
  now rewrite !delete_insert_id in M.
Qed.

(** When the queried options list the same keys in the same order as the
    options of the active processor, [isSelected] agrees with deep
    equality. *)
Theorem isSelected_deep_equality_same_keys (type : ProcessorType)
    (options opts : BackgroundOptions) (w : World) :
  active_descriptor w = Some (type, opts) ->
  well_formed_object opts -> opts.*1 = options.*1 ->
  (isSelected type options w = true <-> deepEqual opts options = true).
Proof.
  intros D W K. rewrite isSelected_true_iff, D. unfold deepEqual.
  rewrite bool_decide_eq_true. split.
  - intros [= ->]. reflexivity.
  - intros M. now rewrite (as_map_same_keys opts options W K M).
Qed.

Lemma isSelected_deep_equality_same_keys_witness :
  active_descriptor world_with_glasses = Some (FACE_LANDMARKS, glasses_first)
  /\ well_formed_object glasses_first
  /\ (isSelected FACE_LANDMARKS glasses_first world_with_glasses = true
      <-> deepEqual glasses_first glasses_first = true).
Proof.
  assert (well_formed_object glasses_first) as W
    by (unfold well_formed_object; compute_done).
  split_and!; [reflexivity | exact W |].
  apply (isSelected_deep_equality_same_keys FACE_LANDMARKS glasses_first
           glasses_first world_with_glasses eq_refl W eq_refl).
Defined.

(** ** The buttons *)


(** In one state [isSelected] holds of at most one descriptor. *)
Theorem isSelected_at_most_one (type1 type2 : ProcessorType)
    (options1 options2 : BackgroundOptions) (w : World) :
  isSelected type1 options1 w = true -> isSelected type2 options2 w = true ->
  type1 = type2 /\ options1 = options2.
Proof.
  intros H1%isSelected_true_iff H2%isSelected_true_iff.
  rewrite H1 in H2. now injection H2.
Qed.

Lemma isSelected_at_most_one_witness :
  isSelected FACE_LANDMARKS glasses_first world_with_glasses = true
  /\ (FACE_LANDMARKS = FACE_LANDMARKS /\ glasses_first = glasses_first).
Proof.
  split; [reflexivity|].
  apply (isSelected_at_most_one FACE_LANDMARKS FACE_LANDMARKS glasses_first
           glasses_first world_with_glasses); reflexivity.
Defined.

Module PathFacts.
Import JSON.
#[local] Arguments String.append !s1 s2 : simpl nomatch.

(** The path determines the index of the image. *)
Lemma imagePath_determines_index (i j : nat) : imagePath i = imagePath j -> i = j.
Proof.
  unfold imagePath. cbn. intros H. injection H as H.
  assert (is_number_char "." = false) as N by reflexivity.
  destruct (JSONFacts.run_inj _ _ _ _ _ _ _
              (JSONFacts.number_chars (Z.of_nat i + 1))
              (JSONFacts.number_chars (Z.of_nat j + 1)) N N H) as [E _].
  apply JSONFacts.number_to_string_inj in E. lia.
Qed.

End PathFacts.

Example imagePath_first : imagePath 0 = "/assets/backgrounds/1.jpg".
Proof. reflexivity. Qed.

(** Distinct indices give distinct background image paths, so the background
    buttons carry descriptors with pairwise distinct JSON texts. *)
Theorem virtual_backgrounds_distinct (i j : nat) :
  i <> j ->
  imagePath i <> imagePath j
  /\ JSON.stringify (virtual_options i) <> JSON.stringify (virtual_options j).
Proof.
  intros Ne. assert (imagePath i <> imagePath j) as P.
  { intros H. now apply Ne, PathFacts.imagePath_determines_index. }
  split; [exact P|]. intros H%JSONFacts.stringify_inj. apply P.
  apply (f_equal (fun o => match js_get o "imagePath" with
                           | Some (JStr s) => s
                           | _ => EmptyString
                           end)) in H.
  exact H.
Qed.

Lemma virtual_backgrounds_distinct_witness :
  0 <> 7 /\ imagePath 0 <> imagePath 7.
Proof.
  assert (0 <> 7) as Ne by discriminate.
  split; [exact Ne | apply (virtual_backgrounds_distinct 0 7 Ne)].
Defined.

Lemma virtual_options_inj (i j : nat) :
  virtual_options i = virtual_options j -> i = j.
Proof.
  intros H. apply PathFacts.imagePath_determines_index.
  apply (f_equal (fun o => match js_get o "imagePath" with
                           | Some (JStr s) => s
                           | _ => EmptyString
                           end)) in H.
  exact H.
Qed.

Lemma face_button_active (w : World) (key : string) :
  truthy (js_get (getFaceLandmarksOptions w) key) = true ->
  (key = "showGlasses" \/ key = "showFrench") ->
  exists opts, active_descriptor w = Some (FACE_LANDMARKS, opts).
Proof.
  unfold getFaceLandmarksOptions, active_descriptor.
  destruct (getProcessor w) as [p|]; [|intros H [->| ->]; discriminate H].
  destruct (serialize p w) as [[[] opts]|]; eauto;
    intros H [->| ->]; discriminate H.
Qed.

(** What a selected button tells about the active descriptor. *)
Lemma control_isSelected_active (c : Control) (w : World) :
  control_isSelected c w = true ->
  match c with
  | NoEffect => active_descriptor w = None
  | Glasses | French =>
      exists opts, active_descriptor w = Some (FACE_LANDMARKS, opts)
  | _ => Some (active_descriptor w) = Some (control_descriptor c)
  end.
Proof.
  destruct c as [| | | | |i]; cbn; intros H.
  - unfold active_descriptor. now destruct (getProcessor w).
  - apply isSelected_true_iff in H. now rewrite H.
  - apply isSelected_true_iff in H. now rewrite H.
  - apply (face_button_active w _ H). auto.
  - apply (face_button_active w _ H). auto.
  - apply isSelected_true_iff in H. now rewrite H.
Qed.

Lemma control_descriptor_inj (c c' : Control) d :
  control_descriptor c = Some d -> control_descriptor c' = Some d -> c = c'.
Proof.
  destruct c as [| | | | |i], c' as [| | | | |j]; cbn; intros [= <-] H;
    try discriminate H; try reflexivity.
  f_equal. apply virtual_options_inj. congruence.
Qed.

(** Two buttons are selected together only if they are the same button or
    the two face buttons: the button without effect, the blur and background
    buttons and the face buttons exclude each other. *)
Theorem controls_exclusive (c c' : Control) (w : World) :
  control_isSelected c w = true -> control_isSelected c' w = true ->
  c = c' \/ (is_face_control c /\ is_face_control c').
Proof.
  unfold is_face_control.
  intros H%control_isSelected_active H'%control_isSelected_active.
  destruct c as [| | | | |i], c' as [| | | | |j]; cbn in *;
    repeat match goal with X : exists _, _ |- _ => destruct X end;
    repeat match goal with X : Some _ = Some _ |- _ => injection X as X end;
    auto; try congruence; try (rewrite H in H'; discriminate H').
  left. f_equal. apply virtual_options_inj. congruence.
Qed.

Lemma controls_exclusive_witness :
  control_isSelected Glasses world_with_glasses = true
  /\ control_isSelected BlurLight world_with_glasses = false.
Proof.
  split; [reflexivity|].
  destruct (control_isSelected BlurLight world_with_glasses) eqn:E;
    [|reflexivity].
  destruct (controls_exclusive Glasses BlurLight world_with_glasses eq_refl E)
    as [X | [_ [X | X]]]; discriminate X.
Defined.

(** With a face-landmarks processor active, each face button is selected
    exactly when its flag is set, but its tooltip asks to clear only when its
    effect is the only one active: with both flags set both buttons are
    selected and both tooltips ask to apply. *)
Theorem tooltipLabel_face_controls (ProcessorType_value : ProcessorType -> string)
    (showGlasses showFrench : bool) (w : World) :
  active_descriptor w = Some (FACE_LANDMARKS, face_flags showGlasses showFrench) ->
  control_isSelected Glasses w = showGlasses
  /\ control_isSelected French w = showFrench
  /\ tooltipLabel ProcessorType_value FACE_LANDMARKS (face_flags true false) w
     = (if showGlasses && negb showFrench
        then "faceLandmarks.glasses.clear" else "faceLandmarks.glasses.apply")
  /\ tooltipLabel ProcessorType_value FACE_LANDMARKS (face_flags false true) w
     = (if negb showGlasses && showFrench
        then "faceLandmarks.french.clear" else "faceLandmarks.french.apply").
Proof.
  intros D. cbn [control_isSelected].
  rewrite (getFaceLandmarksOptions_active w _ D).
  assert (forall g f, isSelected FACE_LANDMARKS (face_flags g f) w
                      = bool_decide (g = showGlasses /\ f = showFrench)) as S.
  { intros g f. destruct (isSelected _ _ w) eqn:E; symmetry.
    - apply isSelected_true_iff in E. rewrite D in E.
      apply bool_decide_eq_true_2. injection E as -> ->. auto.
    - apply isSelected_false_iff in E. rewrite D in E.
      apply bool_decide_eq_false_2. intros [-> ->]. now apply E. }
  unfold tooltipLabel. rewrite !S.
  destruct showGlasses, showFrench; split_and!; reflexivity.
Qed.

Lemma tooltipLabel_face_controls_witness :
  active_descriptor world_with_glasses = Some (FACE_LANDMARKS, face_flags true false)
  /\ tooltipLabel (fun _ => EmptyString) FACE_LANDMARKS (face_flags true false)
       world_with_glasses
     = "faceLandmarks.glasses.clear".
Proof.
  split; [reflexivity|].
  apply (tooltipLabel_face_controls (fun _ => EmptyString) true false
           world_with_glasses eq_refl).
Defined.

(** ** The control functions, whatever the collaborators answer *)

(** [toggleEffect] returns normally unless the call that enables the camera
    rejects, which happens only without track or with the camera disabled and
    leaves the active descriptor unchanged: every failure inside the [try]
    block is caught. *)
Theorem toggleEffect_errors (env : Env) (type : ProcessorType)
    (options : BackgroundOptions) (w : World) :
  let r := toggleEffect env type options w in
  completion r = Returned tt
  \/ (completion r = Thrown TrackUnavailable
      /\ toggle_rejects env = true
      /\ (videoTrack w = None \/ enabled w = false)
      /\ active_descriptor (final r) = active_descriptor w).
Proof.
  destruct w as [vt en h pend tm tr], env as [fs tg sp st up os].
  unfold completion, final, active_descriptor, getProcessor, serialize. cbn.
  destruct vt as [[x]|], en, tg; crunch; auto 10.
Qed.

(** [processorPending] is true when [toggleEffect] completes, whatever
    happened: it is lowered only by the queued timer, which is queued once the
    camera is enabled. *)
Theorem toggleEffect_pending_deferred (env : Env) (type : ProcessorType)
    (options : BackgroundOptions) (w : World) :
  let r := toggleEffect env type options w in
  processorPending (final r) = true
  /\ ((videoTrack w <> None /\ enabled w = true) \/ toggle_rejects env = false ->
      timers (final r) = timers w ++ [SetProcessorPending false]
      /\ processorPending (runTimers (final r)) = false).
Proof.
  cbn zeta. split.
  - destruct w as [vt en h pend tm tr], env as [fs tg sp st up os].
    unfold final. destruct vt as [[x]|]; crunch; reflexivity.
  - intros H. split; [now apply toggleEffect_queues_timer|].
    now apply toggleEffect_clears_pending.
Qed.

(** [isSelected] reads the track and the store only. *)
Lemma isSelected_frame type options vt e h p tm tr e' p' tm' tr' :
  isSelected type options (mkWorld vt e h p tm tr)
  = isSelected type options (mkWorld vt e' h p' tm' tr').
Proof. reflexivity. Qed.

(** What a call of [toggleEffect] never does: it constructs at most one
    processor, it does not call [stopProcessor] unless the descriptor was
    selected, it neither disables the camera nor loses the track. *)
Theorem toggleEffect_frame (env : Env) (type : ProcessorType)
    (options : BackgroundOptions) (w : World) :
  let r := toggleEffect env type options w in
  (exists events,
     trace (final r) = trace w ++ events
     /\ length (List.filter is_construct events) <= 1
     /\ (isSelected type options w = false -> List.filter is_stop events = []))
  /\ (enabled w = true -> enabled (final r) = true)
  /\ (videoTrack w <> None -> videoTrack (final r) <> None)
  /\ (length (heap (final r)) = length (heap w)
      \/ length (heap (final r)) = S (length (heap w))).
Proof.
  destruct w as [vt en h pend tm tr], env as [fs tg sp st up os].
  unfold final. cbn.
  set (sel := isSelected type options (mkWorld vt en h pend tm tr)).
  assert (forall e p q t,
            isSelected type options (mkWorld vt e h p q t) = sel) as F
    by reflexivity.
  clearbody sel.
  destruct vt as [[x]|]; run; rewrite ?F; destruct sel;
    repeat (run; rewrite ?F; try branch).
  all: split_and!.
  all: try (eexists; split_and!;
         [rewrite <- ?app_assoc; reflexivity | cbn; lia
         | cbn; congruence]).
  all: try congruence; auto.
  all: try (rewrite ?length_alter, ?length_app; cbn [length]; lia).
  all: try (rewrite length_app; cbn [length]; lia).
Qed.


(** ** The store, as the calls leave it *)

Section StoreSteps.
Context (h : list ProcessorObj) (ty : ProcessorType) (o : BackgroundOptions).

Lemma slot_consistent_lookup p :
  slot_consistent (Some p) h -> exists obj, h !! p = Some obj /\ pstate obj = Bound.
Proof. intros C. now apply (consistent_lookup _ p C). Qed.

Lemma swap_normal p :
  is_Some (h !! p) ->
  alter (set_lifecycle Bound) (length h)
    (alter (set_lifecycle Disposed) p (h ++ [mkProcessorObj ty o Unbound]))
  = alter (set_lifecycle Disposed) p h ++ [mkProcessorObj ty o Bound].
Proof.
  intros [x Hx%lookup_lt_Some]. rewrite alter_app_l by assumption.
  rewrite <- (length_alter (set_lifecycle Disposed) h p) at 1.
  now rewrite alter_alloc.
Qed.

Lemma sc_alloc_unbound slot :
  slot_consistent slot h ->
  slot_consistent slot (h ++ [mkProcessorObj ty o Unbound]).
Proof.
  intros C q. rewrite is_bound_alloc. case_decide as E; [|apply (C q)].
  subst q. cbn. split; [discriminate|]. intros G. apply (C (length h)) in G.
  unfold is_bound in G. cbn in G. now rewrite lookup_ge_None_2 in G.
Qed.

Lemma sc_alloc_bound :
  slot_consistent None h ->
  slot_consistent (Some (length h)) (h ++ [mkProcessorObj ty o Bound]).
Proof.
  intros C q. rewrite is_bound_alloc. cbn. case_decide as E; [now subst|].
  split; [|congruence]. intros B. apply (C q) in B. discriminate B.
Qed.

Lemma sc_bind_fresh :
  slot_consistent None h ->
  slot_consistent (Some (length h))
    (alter (set_lifecycle Bound) (length h) (h ++ [mkProcessorObj ty o Unbound])).
Proof. rewrite alter_alloc. apply sc_alloc_bound. Qed.

Lemma sc_dispose p :
  slot_consistent (Some p) h ->
  slot_consistent None (alter (set_lifecycle Disposed) p h).
Proof.
  intros C q. rewrite (is_bound_mark_disposed h (Some p)). cbn.
  case_decide as E; [split; discriminate|]. split; [|discriminate].
  intros B. apply (C q) in B. cbn in B. congruence.
Qed.

Lemma sc_swap p :
  slot_consistent (Some p) h ->
  slot_consistent (Some (length h))
    (alter (set_lifecycle Bound) (length h)
       (alter (set_lifecycle Disposed) p (h ++ [mkProcessorObj ty o Unbound]))).
Proof.
  intros C. destruct (slot_consistent_lookup p C) as (obj & Hh & _).
  rewrite swap_normal by eauto.
  pose proof (sc_dispose p C) as D.
  intros q. rewrite is_bound_alloc, length_alter. cbn.
  case_decide as E; [now subst|]. split; [|congruence].
  intros B. apply (D q) in B. discriminate B.
Qed.

Lemma sc_update slot p :
  slot_consistent slot h -> slot_consistent slot (alter (set_options o) p h).
Proof. intros C q. rewrite is_bound_set_options. apply (C q). Qed.

Lemma da_alloc p x :
  is_Some (h !! p) -> descriptor_at (Some p) (h ++ [x]) = descriptor_at (Some p) h.
Proof.
  intros [y Hy]. unfold descriptor_at, active_descriptor, serialize. cbn.
  now rewrite (lookup_alloc_old h x p y Hy), Hy.
Qed.

Lemma da_bind_fresh :
  descriptor_at (Some (length h))
    (alter (set_lifecycle Bound) (length h) (h ++ [mkProcessorObj ty o Unbound]))
  = Some (ty, o).
Proof.
  rewrite alter_alloc. unfold descriptor_at, active_descriptor, serialize. cbn.
  now rewrite list_lookup_middle.
Qed.

Lemma da_swap p :
  is_Some (h !! p) ->
  descriptor_at (Some (length h))
    (alter (set_lifecycle Bound) (length h)
       (alter (set_lifecycle Disposed) p (h ++ [mkProcessorObj ty o Unbound])))
  = Some (ty, o).
Proof.
  intros H. rewrite swap_normal by assumption.
  unfold descriptor_at, active_descriptor, serialize. cbn.
  rewrite <- (length_alter (set_lifecycle Disposed) h p) at 1.
  now rewrite list_lookup_middle.
Qed.

Lemma da_update p obj :
  h !! p = Some obj ->
  descriptor_at (Some p) (alter (set_options o) p h) = Some (ptype obj, o).
Proof.
  intros H. unfold descriptor_at, active_descriptor, serialize. cbn.
  now rewrite list_lookup_alter_eq, H.
Qed.

End StoreSteps.

#[local] Arguments active_descriptor : simpl never.

Ltac to_store :=
  repeat match goal with
  | |- context [consistent (mkWorld (Some (mkTrack ?s)) ?e ?h ?p ?q ?t)] =>
      change (consistent (mkWorld (Some (mkTrack s)) e h p q t))
        with (slot_consistent s h)
  | |- context [consistent (mkWorld None ?e ?h ?p ?q ?t)] =>
      change (consistent (mkWorld None e h p q t)) with (slot_consistent None h)
  | |- context [active_descriptor (mkWorld (Some (mkTrack ?s)) ?e ?h ?p ?q ?t)] =>
      change (active_descriptor (mkWorld (Some (mkTrack s)) e h p q t))
        with (descriptor_at s h)
  | |- context [active_descriptor (mkWorld None ?e ?h ?p ?q ?t)] =>
      change (active_descriptor (mkWorld None e h p q t))
        with (descriptor_at None h)
  end.

Ltac store_done :=
  rewrite ?da_swap, ?da_bind_fresh, ?da_alloc by eauto;
  repeat match goal with
         | H : ?h !! ?p = Some ?obj |- context [alter (set_options ?o) ?p ?h] =>
             rewrite (da_update h o p obj H)
         end;
  split;
  [ eauto using sc_alloc_unbound, sc_alloc_bound, sc_bind_fresh, sc_dispose,
      sc_swap, sc_update
  | auto ].

(** For every answer of the collaborators, a call keeps the store and the
    track consistent and ends with the requested descriptor active, with none
    (when it was the selected one), or with the descriptor unchanged. *)
Lemma toggleEffect_general env type options w :
  consistent w ->
  let r := toggleEffect env type options w in
  consistent (final r)
  /\ (if isSelected type options w
      then active_descriptor (final r) = None
           \/ active_descriptor (final r) = active_descriptor w
      else active_descriptor (final r) = Some (type, options)
           \/ active_descriptor (final r) = active_descriptor w).
Proof.
  intros C. destruct w as [vt en h pend tm tr], env as [fs tg sp st up os].
  unfold final. destruct vt as [[[p|]]|].
  - (* a processor is bound *)
    change (slot_consistent (Some p) h) in C.
    destruct (slot_consistent_lookup h p C) as (obj & Hh & Hb).
    assert (descriptor_at (Some p) h = Some (ptype obj, poptions obj)) as Da
      by (unfold descriptor_at, active_descriptor, serialize; cbn; now rewrite Hh).
    destruct (decide (ptype obj = type)) as [Ek|Ek];
      [destruct (decide (poptions obj = options)) as [Eo|Eo]|].
    + assert (forall e pe q t',
                isSelected type options
                  (mkWorld (Some (mkTrack (Some p))) e h pe q t') = true) as Sel.
      { intros. apply isSelected_true_iff. subst.
        now apply (active_descriptor_intro _ p). }
      destruct en, tg, st, os as [[]|]; run; rewrite ?Sel; run;
        to_store; store_done.
    + (* the active kind, other options *)
      assert (forall e pe q t',
                isSelected type options
                  (mkWorld (Some (mkTrack (Some p))) e h pe q t') = false) as Sel.
      { intros. apply isSelected_false_iff.
        rewrite (active_descriptor_intro _ p obj); [congruence|reflexivity|exact Hh]. }
      destruct en, tg, up, os as [[]|]; run; rewrite ?Sel; run;
        unfold serialize; cbn; rewrite ?Hh; run;
        rewrite ?bool_decide_eq_false_2 by (intros X; now apply X); run;
        to_store; store_done; subst type; auto.
    + (* another kind *)
      assert (forall e pe q t',
                isSelected type options
                  (mkWorld (Some (mkTrack (Some p))) e h pe q t') = false) as Sel.
      { intros. apply isSelected_false_iff.
        rewrite (active_descriptor_intro _ p obj); [congruence|reflexivity|exact Hh]. }
      destruct en, tg, fs, sp, os as [[]|]; run; rewrite ?Sel; run;
        unfold serialize; cbn; rewrite ?Hh; run;
        rewrite ?bool_decide_eq_true_2 by assumption; run;
        to_store; store_done.
  - (* an empty slot *)
    change (slot_consistent None h) in C.
    assert (forall e pe q t',
              isSelected type options
                (mkWorld (Some (mkTrack None)) e h pe q t') = false) as Sel
      by reflexivity.
    destruct en, tg, fs, sp, os as [[]|]; run; rewrite ?Sel; run;
      to_store; store_done.
  - (* no track *)
    change (slot_consistent None h) in C.
    assert (isSelected type options (mkWorld None en h pend tm tr) = false) as ->
      by reflexivity.
    destruct fs, tg; run; to_store; store_done.
Qed.

(** For every answer of the collaborators, [clearEffect] keeps the store and
    the track consistent. *)
Lemma clearEffect_general env w :
  consistent w -> consistent (final (clearEffect env w)).
Proof.
  intros C. destruct w as [vt en h pend tm tr], env as [fs tg sp st up os].
  unfold final. destruct vt as [[[p|]]|].
  - change (slot_consistent (Some p) h) in C.
    destruct st, os as [[]|]; run; to_store;
      eauto using sc_dispose.
  - destruct os as [[]|]; run; exact C.
  - run. exact C.
Qed.

(** [clearEffect] without video track throws and changes nothing; when the
    bound processor cannot be stopped the error propagates, the processor
    stays and the parent is not told; the parent is told only once no
    processor is left on the track. *)
Theorem clearEffect_errors (env : Env) (w : World) :
  let r := clearEffect env w in
  (videoTrack w = None -> completion r = Thrown TypeError /\ final r = w)
  /\ (forall p, getProcessor w = Some p -> stopProcessor_rejects env = true ->
      completion r = Thrown ProcessorFailure
      /\ getProcessor (final r) = Some p
      /\ heap (final r) = heap w
      /\ trace (final r) = trace w ++ [EvStopProcessor])
  /\ (completion r = Returned tt -> getProcessor (final r) = None)
  /\ (exists events,
        trace (final r) = trace w ++ events
        /\ (List.filter is_submit events <> [] ->
            videoTrack w <> None /\ getProcessor (final r) = None)).
Proof.
  destruct w as [vt en h pend tm tr], env as [fs tg sp st up os].
  unfold final, completion, getProcessor. cbn. split_and!.
  - intros ->. now run.
  - intros p G ->. destruct vt as [[x]|]; cbn in G; [subst x|discriminate].
    run. auto.
  - destruct vt as [[[p|]]|], st, os as [[]|]; run; intros; congruence.
  - destruct vt as [[[p|]]|], st, os as [[]|]; run; rewrite <- ?app_assoc;
      (eexists; split; [reflexivity|]) || (exists []; split; [now rewrite app_nil_r|]);
      cbn; intros X; try (now destruct X); auto.
Qed.

(** Which branch [toggleFaceLandmarkEffect] takes on two given flags. *)
Lemma toggleFaceLandmarkEffect_branch env effect g f w :
  active_descriptor w = Some (FACE_LANDMARKS, face_flags g f) ->
  toggleFaceLandmarkEffect env effect w
  = let '(g', f') := flipped_flags effect g f in
    if g' || f' then toggleEffect env FACE_LANDMARKS (face_flags g' f') w
    else clearEffect env w.
Proof.
  intros D.
  rewrite toggleFaceLandmarkEffect_eq, (getFaceLandmarksOptions_active w _ D).
  now destruct effect, g, f.
Qed.

(** Whatever the collaborators answer, every button handler keeps the store
    and the track consistent: the bound processors are exactly the one in the
    track's slot. *)
Theorem control_press_consistent (env : Env) (c : Control) (w : World) :
  consistent w -> consistent (final (control_press env c w)).
Proof.
  intros C.
  assert (forall e, consistent (final (toggleFaceLandmarkEffect env e w))) as F.
  { intros e. rewrite toggleFaceLandmarkEffect_eq. cbn zeta.
    destruct (_ && _);
      [now apply clearEffect_general | now apply toggleEffect_general]. }
  destruct c; cbn [control_press]; auto using clearEffect_general;
    now apply toggleEffect_general.
Qed.

Lemma control_press_consistent_witness :
  consistent world_with_glasses
  /\ consistent (final (control_press env_bind_fails BlurLight world_with_glasses)).
Proof.
  split; [exact world_with_glasses_consistent|].
  apply (control_press_consistent env_bind_fails BlurLight world_with_glasses
           world_with_glasses_consistent).
Defined.

(** Whatever the collaborators answer, [toggleEffect] ends with the
    requested descriptor active or the previous one unchanged when the
    descriptor was not selected, and with none or the previous one unchanged
    when it was. *)
Theorem toggleEffect_outcomes (env : Env) (type : ProcessorType)
    (options : BackgroundOptions) (w : World) :
  consistent w ->
  let r := toggleEffect env type options w in
  (isSelected type options w = true ->
     active_descriptor (final r) = None
     \/ active_descriptor (final r) = active_descriptor w)
  /\ (isSelected type options w = false ->
     active_descriptor (final r) = Some (type, options)
     \/ active_descriptor (final r) = active_descriptor w).
Proof.
  intros C. destruct (toggleEffect_general env type options w C) as [_ O].
  cbn zeta. split; intros S; now rewrite S in O.
Qed.

Lemma toggleEffect_outcomes_witness :
  consistent world_with_glasses
  /\ isSelected BLUR blur_light world_with_glasses = false
  /\ active_descriptor
       (final (toggleEffect env_bind_fails BLUR blur_light world_with_glasses))
     = active_descriptor world_with_glasses.
Proof.
  split_and!; [exact world_with_glasses_consistent | reflexivity |].
  destruct (toggleEffect_outcomes env_bind_fails BLUR blur_light
              world_with_glasses world_with_glasses_consistent) as [_ O].
  destruct (O eq_refl) as [X|X]; [discriminate X | exact X].
Defined.

(** With a face-landmarks processor active and the collaborators succeeding,
    [toggleFaceLandmarkEffect] flips the requested flag: if a flag remains set
    the same processor carries the new flags, otherwise the processor is
    stopped and disposed; the face buttons show the new flags. *)
Theorem toggleFaceLandmarkEffect_flags (env : Env) (effect : FaceEffect)
    (showGlasses showFrench : bool) (w : World) (p : ProcRef) :
  consistent w -> all_succeed env = true -> getProcessor w = Some p ->
  active_descriptor w = Some (FACE_LANDMARKS, face_flags showGlasses showFrench) ->
  let '(g, f) := flipped_flags effect showGlasses showFrench in
  let r := toggleFaceLandmarkEffect env effect w in
  completion r = Returned tt
  /\ control_isSelected Glasses (final r) = g
  /\ control_isSelected French (final r) = f
  /\ (if g || f
      then getProcessor (final r) = Some p
           /\ active_descriptor (final r) = Some (FACE_LANDMARKS, face_flags g f)
           /\ length (heap (final r)) = length (heap w)
      else getProcessor (final r) = None
           /\ is_disposed (final r) p = true).
Proof.
  intros C A G D.
  rewrite (toggleFaceLandmarkEffect_branch env effect _ _ w D).
  destruct (flipped_flags effect showGlasses showFrench) as [g f] eqn:E.
  destruct (g || f) eqn:B.
  - destruct (toggleEffect_in_place env FACE_LANDMARKS
                (face_flags showGlasses showFrench) (face_flags g f) w p C A G D)
      as (R & G' & D' & _ & _ & L & _).
    { destruct effect, showGlasses, showFrench; injection E as <- <-;
        discriminate. }
    cbn [control_isSelected].
    rewrite (getFaceLandmarksOptions_active _ _ D').
    split_and!; auto; now destruct g, f.
  - destruct (all_succeed_elim env A) as (_ & _ & _ & Hs & _ & Ho).
    rewrite (clearEffect_bound env w p G Hs Ho).
    destruct (consistent_lookup w p C G) as (obj & Hh & _).
    unfold final, completion, is_disposed, getProcessor.
    cbn [fst snd videoTrack heap track_processor control_isSelected].
    rewrite list_lookup_alter_eq, Hh.
    destruct g, f; try discriminate B. split_and!; reflexivity.
Qed.

Lemma toggleFaceLandmarkEffect_flags_witness :
  consistent world_with_glasses /\ all_succeed env_ok = true
  /\ control_isSelected French
       (final (toggleFaceLandmarkEffect env_ok french world_with_glasses))
     = true.
Proof.
  split_and!; [exact world_with_glasses_consistent | reflexivity |].
  apply (toggleFaceLandmarkEffect_flags env_ok french true false
           world_with_glasses 0 world_with_glasses_consistent
           eq_refl eq_refl eq_refl).
Defined.

(** ** Pressing the buttons *)

Lemma control_descriptor_press env c ty o w :
  control_descriptor c = Some (ty, o) ->
  control_press env c = toggleEffect env ty o
  /\ control_isSelected c w = isSelected ty o w.
Proof. destruct c; cbn; intros [= <- <-]; auto. Qed.

Lemma no_effect_alone (w : World) :
  getProcessor w = None ->
  control_isSelected NoEffect w = true
  /\ (forall c, control_isSelected c w = true -> c = NoEffect).
Proof.
  intros G. split; [cbn; now rewrite G|].
  assert (active_descriptor w = None) as D
    by (unfold active_descriptor; now rewrite G).
  intros c H%control_isSelected_active.
  destruct c as [| | | | |j]; cbn in H;
    repeat match goal with X : exists _, _ |- _ => destruct X end;
    congruence.
Qed.

(** When the collaborators succeed, pressing a blur or background button that
    is not selected selects it and no other button; pressing it again selects
    the button without effect and no other. *)
Theorem control_press_selects (env1 env2 : Env) (c : Control)
    (d : ProcessorType * BackgroundOptions) (w : World) :
  control_descriptor c = Some d -> consistent w ->
  all_succeed env1 = true -> all_succeed env2 = true ->
  control_isSelected c w = false ->
  let w1 := final (control_press env1 c w) in
  let w2 := final (control_press env2 c w1) in
  control_isSelected c w1 = true
  /\ (forall c', control_isSelected c' w1 = true -> c' = c)
  /\ control_isSelected NoEffect w2 = true
  /\ (forall c', control_isSelected c' w2 = true -> c' = NoEffect).
Proof.
  destruct d as [ty o]. intros Hd C A1 A2 S. cbn zeta.
  destruct (control_descriptor_press env1 c ty o w Hd) as [-> Ew].
  rewrite Ew in S.
  destruct (toggleEffect_activates env1 ty o w C S A1) as (_ & D & C1 & _).
  set (w1 := final (toggleEffect env1 ty o w)) in *.
  destruct (control_descriptor_press env2 c ty o w1 Hd) as [-> E1].
  destruct (all_succeed_elim env2 A2) as (_ & Ht & _ & Hs & _ & Ho).
  destruct (toggleEffect_deactivates env2 ty o w1 C1 D) as (_ & G & _); auto.
  set (w2 := final (toggleEffect env2 ty o w1)) in *.
  destruct (no_effect_alone w2 G) as [N1 N2].
  split_and!; [| |exact N1|exact N2].
  - rewrite E1. now apply isSelected_true_iff.
  - intros c' H%control_isSelected_active.
    assert (control_descriptor c' = Some (ty, o) -> c' = c) as Inj.
    { intros X. now apply (control_descriptor_inj c' c (ty, o)). }
    destruct c' as [| | | | |j]; cbn in H;
      repeat match goal with X : exists _, _ |- _ => destruct X end;
      try (apply Inj; cbn; congruence);
      rewrite D in H; try discriminate H;
      injection H as E _; subst ty; destruct c; discriminate Hd.
Qed.

Lemma control_press_selects_witness :
  control_descriptor (Virtual 2) = Some (VIRTUAL, virtual_options 2)
  /\ consistent world_with_glasses /\ all_succeed env_ok = true
  /\ control_isSelected (Virtual 2) world_with_glasses = false
  /\ control_isSelected (Virtual 2)
       (final (control_press env_ok (Virtual 2) world_with_glasses))
     = true.
Proof.
  split_and!; [reflexivity | exact world_with_glasses_consistent
              | reflexivity | reflexivity |].
  apply (control_press_selects env_ok env_ok (Virtual 2)
           (VIRTUAL, virtual_options 2) world_with_glasses eq_refl
           world_with_glasses_consistent eq_refl eq_refl eq_refl).
Defined.

(** After the handler of the button without effect has returned, that button
    is the only one selected. *)
Theorem control_press_no_effect (env : Env) (w : World) :
  completion (control_press env NoEffect w) = Returned tt ->
  let w1 := final (control_press env NoEffect w) in
  getProcessor w1 = None
  /\ control_isSelected NoEffect w1 = true
  /\ (forall c, control_isSelected c w1 = true -> c = NoEffect).
Proof.
  cbn [control_press]. intros R. cbn zeta.
  assert (getProcessor (final (clearEffect env w)) = None) as G.
  { destruct (clearEffect_returned env w R) as (Ho & t & Hv & Hs).
    destruct (track_processor t) as [p|] eqn:Et.
    - destruct Hs as [?|Hs]; [discriminate|].
      rewrite (clearEffect_bound env w p); auto.
      unfold getProcessor. now rewrite Hv, Et.
    - rewrite (clearEffect_empty env w t Hv Et Ho).
      unfold final, getProcessor; cbn. now rewrite Hv. }
  split; [exact G | now apply no_effect_alone].
Qed.

Lemma control_press_no_effect_witness :
  completion (control_press env_ok NoEffect world_with_glasses) = Returned tt
  /\ control_isSelected Glasses
       (final (control_press env_ok NoEffect world_with_glasses))
     = false.
Proof.
  split; [reflexivity|].
  destruct (control_press_no_effect env_ok world_with_glasses eq_refl)
    as (_ & _ & Only).
  destruct (control_isSelected Glasses _) eqn:E; [|reflexivity].
  discriminate (Only Glasses E).
Defined.
